(** * bddrest.specification: calls, overridden calls, stories

    A shallow embedding of [bddrest/specification.py].  Python text is
    modelled by [string] (ASCII text: the character classes below are the
    ones Python's [re] and [int] use on code points below 128), byte strings
    by [list ascii], dictionaries with open key sets ([url_parameters],
    [form], [query]) by [gmap string scalar], keyword dictionaries with the
    key set of a constructor by records of optional fields, and exceptions
    by the [Raise] branch of [result]. *)

From Stdlib Require Import ZArith Ascii String List Lia Bool.
From Stdlib Require Import DecimalString DecimalN DecimalPos.
From stdpp Require Import base option gmap strings list fin_maps.

Open Scope string_scope.
Open Scope Z_scope.

(** ** Exceptions *)

Inductive exn : Type :=
| TypeError
| ValueError
| KeyError
| AttributeError
| UnicodeDecodeError.

Inductive result (A : Type) : Type :=
| Return (a : A)
| Raise (e : exn).
Arguments Return {A} a.
Arguments Raise {A} e.

#[global] Instance result_ret : MRet result := fun A a => Return a.

#[global] Instance result_bind : MBind result := fun A B k r =>
  match r with
  | Return a => k a
  | Raise e => Raise e
  end.

#[global] Instance result_fmap : FMap result := fun A B f r =>
  match r with
  | Return a => Return (f a)
  | Raise e => Raise e
  end.

(** A list comprehension whose body may raise: left to right, the first
    exception wins. *)
Fixpoint comprehension {A B} (f : A -> result B) (l : list A) : result (list B) :=
  match l with
  | [] => Return []
  | a :: l' =>
      b ← f a;
      bs ← comprehension f l';
      mret (b :: bs)
  end.

(** ** Character classes of [re] on ASCII text *)

Definition code (c : ascii) : N := N_of_ascii c.

Definition in_range (lo hi : N) (c : ascii) : bool :=
  (N.leb lo (code c) && N.leb (code c) hi)%bool.

Definition is_digit (c : ascii) : bool := in_range 48 57 c.

Definition is_alpha (c : ascii) : bool :=
  (in_range 65 90 c || in_range 97 122 c)%bool.

(** [\w] *)
Definition is_word (c : ascii) : bool :=
  (is_alpha c || is_digit c || N.eqb (code c) 95)%bool.

(** [\s]: the code points below 128 for which [str.isspace] holds. *)
Definition is_space (c : ascii) : bool :=
  (in_range 9 13 c || in_range 28 32 c)%bool.

(** [[\w\d_-]], the class of URL_PARAMETER_VALUE_PATTERN. *)
Definition is_value_char (c : ascii) : bool :=
  (is_word c || is_digit c || N.eqb (code c) 95 || N.eqb (code c) 45)%bool.

(** [.] without DOTALL *)
Definition is_dot (c : ascii) : bool := negb (N.eqb (code c) 10).

(** The longest prefix whose characters are in class [p], and what follows:
    a greedy [p*]. *)
Fixpoint span (p : ascii -> bool) (s : string) : string * string :=
  match s with
  | EmptyString => (EmptyString, EmptyString)
  | String c s' =>
      if p c then let '(a, b) := span p s' in (String c a, b)
      else (EmptyString, s)
  end.

(** [s.startswith(pre)], returning the remainder. *)
Fixpoint strip_prefix (pre s : string) : option string :=
  match pre, s with
  | EmptyString, _ => Some s
  | String a pre', String b s' =>
      if Ascii.eqb a b then strip_prefix pre' s' else None
  | String _ _, EmptyString => None
  end.

(** [:\s?([\w\d_-]+)] matched at the head of [s]: the value and the number of
    characters consumed.  The optional blank is taken when there is one; the
    class of the value holds no blank, so giving it back never helps. *)
Definition match_colon_value (s : string) : option (string * nat) :=
  match s with
  | String ":" r =>
      let '(blank, r') :=
        match r with
        | String c r'' => if is_space c then (1%nat, r'') else (0%nat, r)
        | EmptyString => (0%nat, r)
        end in
      let '(v, _) := span is_value_char r' in
      match v with
      | EmptyString => None
      | _ => Some (v, (1 + blank + String.length v)%nat)
      end
  | _ => None
  end.

(** URL_PARAMETER_PATTERN, [/(?P<key>\w+):\s?(?P<value>[\w\d_-]+)], matched
    at the head of [s]: key, value and length of the match. *)
Definition match_url_parameter (s : string) : option (string * string * nat) :=
  match s with
  | String "/" r =>
      let '(k, r') := span is_word r in
      match k with
      | EmptyString => None
      | _ =>
          match match_colon_value r' with
          | Some (v, n) => Some (k, v, (1 + String.length k + n)%nat)
          | None => None
          end
      end
  | _ => None
  end.

(** The pattern of the substitution, [f'{k}:\s?[\w\d_-]+'], matched at the
    head of [s]: length of the match. *)
Definition match_key_value (k s : string) : option nat :=
  match strip_prefix k s with
  | Some r =>
      match match_colon_value r with
      | Some (_, n) => Some (String.length k + n)%nat
      | None => None
      end
  | None => None
  end.

(** [URL_PARAMETER_PATTERN.search(url)] as a truth value. *)
Fixpoint search_url_parameter (s : string) : bool :=
  match match_url_parameter s with
  | Some _ => true
  | None =>
      match s with
      | EmptyString => false
      | String _ s' => search_url_parameter s'
      end
  end.

(** [URL_PARAMETER_PATTERN.findall(url)]: the (key, value) groups of the
    matches from left to right, no two overlapping.  [skip] counts the
    characters still covered by the last match. *)
Fixpoint findall_from (skip : nat) (s : string) : list (string * string) :=
  match skip with
  | S skip' =>
      match s with
      | EmptyString => []
      | String _ s' => findall_from skip' s'
      end
  | O =>
      match s with
      | EmptyString => []
      | String _ s' =>
          match match_url_parameter s with
          | Some (k, v, n) => (k, v) :: findall_from (Nat.pred n) s'
          | None => findall_from 0 s'
          end
      end
  end.

Definition findall_url_parameter (s : string) : list (string * string) :=
  findall_from 0 s.

(** [re.sub(f'{k}:\s?[\w\d_-]+', f':{k}', url)]: every match, from left to
    right and not overlapping, is replaced by [:k]. *)
Fixpoint sub_from (k : string) (skip : nat) (s : string) : string :=
  match skip with
  | S skip' =>
      match s with
      | EmptyString => EmptyString
      | String _ s' => sub_from k skip' s'
      end
  | O =>
      match s with
      | EmptyString => EmptyString
      | String c s' =>
          match match_key_value k s with
          | Some n => String ":" k +:+ sub_from k (Nat.pred n) s'
          | None => String c (sub_from k 0 s')
          end
      end
  end.

Definition sub_key_value (k url : string) : string := sub_from k 0 url.

(** ** Scalars and open dictionaries *)

Inductive scalar : Type :=
| SStr (s : string)
| SInt (z : Z).

#[global] Instance scalar_eq_dec : EqDecision scalar.
Proof. solve_decision. Defined.

Abbreviation pydict := (gmap string scalar).

(** [d.update(other)]: the keys of [other] win. *)
Definition update (d other : pydict) : pydict := other ∪ d.

(** ** Call.extract_url_parameters *)

Definition extract_step (acc : string * pydict) (kv : string * string)
  : string * pydict :=
  let '(url, url_parameters) := acc in
  let '(k, v) := kv in
  (sub_key_value k url, <[k := SStr v]> url_parameters).

Definition extract_url_parameters (url : string) : string * pydict :=
  if search_url_parameter url
  then fold_left extract_step (findall_url_parameter url) (url, ∅)
  else (url, ∅).

(** ** Built-ins: [int], [str.split], [str.join], [in] *)

Definition digit_value (c : ascii) : Z := Z.of_N (code c) - 48.

(** The blanks [int] skips around an ASCII literal: tab to carriage return,
    and the space. *)
Definition is_int_space (c : ascii) : bool :=
  (in_range 9 13 c || N.eqb (code c) 32)%bool.

Definition all_int_space (s : string) : bool :=
  forallb is_int_space (list_ascii_of_string s).

(** The digits of a decimal literal, single underscores allowed between two
    digits, then blanks up to the end. *)
Fixpoint int_digits (acc : Z) (after_digit : bool) (s : string) : option Z :=
  match s with
  | EmptyString => if after_digit then Some acc else None
  | String c s' =>
      if is_digit c then int_digits (10 * acc + digit_value c) true s'
      else if Ascii.eqb c "_" then
        if after_digit then int_digits acc false s' else None
      else if (is_int_space c && after_digit && all_int_space s')%bool then Some acc
      else None
  end.

Fixpoint int_lstrip (s : string) : string :=
  match s with
  | String c s' => if is_int_space c then int_lstrip s' else s
  | EmptyString => EmptyString
  end.

(** [int(s)] for a string: blanks around, an optional sign, decimal digits. *)
Definition int (s : string) : result Z :=
  let parsed :=
    match int_lstrip s with
    | String "-" r => Z.opp <$> int_digits 0 false r
    | String "+" r => int_digits 0 false r
    | r => int_digits 0 false r
    end in
  match parsed with
  | Some z => Return z
  | None => Raise ValueError
  end.

(** [' ' in s] *)
Fixpoint contains_space (s : string) : bool :=
  match s with
  | EmptyString => false
  | String c s' => (Ascii.eqb c " " || contains_space s')%bool
  end.

(** [s.split(' ')]: never empty. *)
Fixpoint split_space (s : string) : list string :=
  match s with
  | EmptyString => [EmptyString]
  | String c s' =>
      if Ascii.eqb c " " then EmptyString :: split_space s'
      else
        match split_space s' with
        | part :: parts => String c part :: parts
        | [] => [String c EmptyString]
        end
  end.

(** [sep.join(parts)] *)
Fixpoint join (sep : string) (parts : list string) : string :=
  match parts with
  | [] => EmptyString
  | [part] => part
  | part :: parts' => part +:+ sep +:+ join sep parts'
  end.

(** What a status line should start with: a run of decimal digits, and the
    number it denotes. *)
Fixpoint all_digits (s : string) : bool :=
  match s with
  | EmptyString => true
  | String c s' => (is_digit c && all_digits s')%bool
  end.

Fixpoint decimal_from (acc : Z) (s : string) : Z :=
  match s with
  | EmptyString => acc
  | String c s' => decimal_from (10 * acc + digit_value c) s'
  end.

Definition decimal (s : string) : Z := decimal_from 0 s.

(** The characters a literal for [int] is made of: digits, the underscore,
    the signs and the blanks; [has_other_char] finds any other. *)
Definition is_int_char (c : ascii) : bool :=
  (is_digit c || Ascii.eqb c "_" || Ascii.eqb c "+" || Ascii.eqb c "-"
   || is_int_space c)%bool.

Fixpoint has_other_char (s : string) : bool :=
  match s with
  | EmptyString => false
  | String c s' => (negb (is_int_char c) || has_other_char s')%bool
  end.

(** ** Collaborators that are not part of specification.py *)

Abbreviation bytes := (list ascii).

(** A header as callers may write it: a (name, value) pair or one line. *)
Inductive header_item : Type :=
| HPair (name value : string)
| HLine (line : string).

(** [normalize_headers] and [normalize_query_string] come from
    bddrest.helpers, [str.encode] and [bytes.decode] from the interpreter. *)
Class Externals : Type := {
  normalize_headers : option (list header_item) -> option (list (string * string));
  normalize_query_string : option pydict -> option pydict;
  str_encode : string -> bytes;
  bytes_decode : bytes -> result string;
}.

(** ** CONTENT_TYPE_PATTERN *)

(** [;\s?charset=(.+)] at the head of [s]. *)
Definition match_charset (s : string) : option string :=
  match s with
  | String ";" r =>
      let r' :=
        match r with
        | String c r'' => if is_space c then r'' else r
        | EmptyString => r
        end in
      match strip_prefix "charset=" r' with
      | Some r'' =>
          match fst (span is_dot r'') with
          | EmptyString => None
          | enc => Some enc
          end
      | None => None
      end
  | _ => None
  end.

(** [CONTENT_TYPE_PATTERN.match(v)], [(\w+/\w+)(?:;\s?charset=(.+))?]: the
    two groups, the second one [None] when the optional part is not there. *)
Definition match_content_type (v : string) : option (string * option string) :=
  let '(major, r) := span is_word v in
  match major, r with
  | String _ _, String "/" r' =>
      let '(minor, r'') := span is_word r' in
      match minor with
      | EmptyString => None
      | _ => Some (major +:+ "/" +:+ minor, match_charset r'')
      end
  | _, _ => None
  end.

(** [': '.join(h)] for a header pair. *)
Definition header_line (h : string * string) : string :=
  fst h +:+ ": " +:+ snd h.

(** [[': '.join(h) for h in headers]] *)
Definition header_lines (hs : list (string * string)) : list header_item :=
  map (fun h => HLine (header_line h)) hs.

(** ** class Response *)

Module Response.

Inductive body_arg : Type :=
| BStr (s : string)
| BBytes (b : bytes).

Record t : Type := {
  status : string;
  headers : list (string * string);
  body : option bytes;
  status_code : Z;
  (** not set at all when the status line has no space *)
  status_text : option string;
  content_type : option string;
  encoding : option string;
}.

(** The mapping of [to_dict], also the keyword arguments of a Response built
    from a mapping; [None] is a key that is not there. *)
Record dict : Type := {
  d_status : option string;
  d_headers : option (list header_item);
  d_body : option body_arg;
}.

(** Lines 26-30. *)
Definition parse_status (status : string) : result (Z * option string) :=
  if contains_space status then
    let parts := split_space status in
    code ← int (hd EmptyString parts);
    mret (code, Some (join " " (tl parts)))
  else
    code ← int status;
    mret (code, None).

(** Lines 32-37: the loop stops at the first header named Content-Type. *)
Fixpoint scan_content_type (hs : list (string * string))
  : option string * option string :=
  match hs with
  | [] => (None, None)
  | (k, v) :: hs' =>
      if String.eqb k "Content-Type" then
        match match_content_type v with
        | Some groups => (Some (fst groups), snd groups)
        | None => (None, None)
        end
      else scan_content_type hs'
  end.

Definition init `{Externals} (status : string)
    (headers : option (list header_item)) (body : option body_arg)
  : result t :=
  let headers' := normalize_headers headers in
  let body' :=
    match body with
    | Some (BStr s) => Some (str_encode s)
    | Some (BBytes b) => Some b
    | None => None
    end in
  '(code, text) ← parse_status status;
  match headers' with
  | None => Raise TypeError
  | Some hs =>
      let '(ct, enc) := scan_content_type hs in
      mret {| status := status; headers := hs; body := body';
              status_code := code; status_text := text;
              content_type := ct; encoding := enc |}
  end.

(** Response called with the mapping [v] as keyword arguments: [status] and
    [headers] are required. *)
Definition of_dict `{Externals} (v : dict) : result t :=
  match d_status v, d_headers v with
  | Some status, Some headers => init status (Some headers) (d_body v)
  | _, _ => Raise TypeError
  end.

Definition to_dict `{Externals} (self : t) : result dict :=
  let result_headers :=
    match headers self with
    | [] => None
    | hs => Some (header_lines hs)
    end in
  match body self with
  | None | Some [] =>
      mret {| d_status := Some (status self); d_headers := result_headers;
              d_body := None |}
  | Some b =>
      text ← bytes_decode b;
      mret {| d_status := Some (status self); d_headers := result_headers;
              d_body := Some (BStr text) |}
  end.

(** The property [text], lines 39-41; [None] has no [decode]. *)
Definition text `{Externals} (self : t) : result string :=
  match body self with
  | Some b => bytes_decode b
  | None => Raise AttributeError
  end.

End Response.

(** ** class Call *)

Module Call.

(** What the [response] attribute may hold: the setter wraps a non-empty
    mapping into a Response and stores anything else as it is. *)
Inductive response_value : Type :=
| RObject (r : Response.t)
| RMapping (v : Response.dict).

Record t : Type := {
  title : string;
  response : option response_value;
  description : option string;
  extra_environ : option pydict;
  url : string;
  url_parameters : pydict;
  verb : string;
  form : option pydict;
  content_type : option string;
  headers : option (list (string * string));
  as_ : option string;
  query : option pydict;
}.

(** The mapping of [to_dict], also the keyword arguments of a Call built
    from a mapping; [None] is a key that is not there. *)
Record dict : Type := {
  d_title : string;
  d_url : option string;
  d_verb : option string;
  d_url_parameters : option pydict;
  d_form : option pydict;
  d_content_type : option string;
  d_headers : option (list header_item);
  d_as_ : option string;
  d_query : option pydict;
  d_description : option string;
  d_extra_environ : option pydict;
  d_response : option Response.dict;
}.

(** Truth value of a mapping: it has a key. *)
Definition mapping_truthy (v : Response.dict) : bool :=
  match Response.d_status v, Response.d_headers v, Response.d_body v with
  | None, None, None => false
  | _, _, _ => true
  end.

(** The setter of [response], line 86. *)
Definition set_response `{Externals} (v : option response_value)
  : result (option response_value) :=
  match v with
  | Some (RMapping m) =>
      if mapping_truthy m then
        r ← Response.of_dict m;
        mret (Some (RObject r))
      else mret v
  | _ => mret v
  end.

Definition init `{Externals} (title url verb : string)
    (url_parameters form : option pydict) (content_type : option string)
    (headers : option (list header_item)) (as_ : option string)
    (query : option pydict) (description : option string)
    (extra_environ : option pydict) (response : option response_value)
  : result t :=
  response' ← set_response response;
  let '(url', extracted) := extract_url_parameters url in
  let url_parameters' :=
    match url_parameters with
    | Some given =>
        if decide (given = ∅) then extracted else update extracted given
    | None => extracted
    end in
  mret {| title := title; response := response';
          description := description; extra_environ := extra_environ;
          url := url'; url_parameters := url_parameters'; verb := verb;
          form := form; content_type := content_type;
          headers := normalize_headers headers; as_ := as_;
          query := normalize_query_string query |}.

(** Call called with the mapping [d] as keyword arguments. *)
Definition of_dict `{Externals} (d : dict) : result t :=
  init (d_title d) (default "/" (d_url d)) (default "GET" (d_verb d))
    (d_url_parameters d) (d_form d) (d_content_type d) (d_headers d)
    (d_as_ d) (d_query d) (d_description d) (d_extra_environ d)
    (RMapping <$> d_response d).

Definition response_to_dict `{Externals} (v : option response_value)
  : result (option Response.dict) :=
  match v with
  | None => mret None
  | Some (RObject r) => Some <$> Response.to_dict r
  | Some (RMapping _) => Raise AttributeError
  end.

Definition to_dict `{Externals} (self : t) : result dict :=
  response_dict ← response_to_dict (response self);
  mret {| d_title := title self;
          d_url := Some (url self);
          d_verb := Some (verb self);
          d_url_parameters := Some (url_parameters self);
          d_form := form self;
          d_content_type := None;
          d_headers := option_map header_lines (headers self);
          d_as_ := as_ self;
          d_query := query self;
          d_description := description self;
          d_extra_environ := None;
          d_response := response_dict |}.

End Call.

(** ** class OverriddenCall *)

Module OverriddenCall.

(** The keyword arguments collected by [**diff].  The outer [None] is a
    key that is not there; for the arguments that may be [None] the inner
    option is the value. *)
Record kwargs : Type := {
  kw_url : option string;
  kw_verb : option string;
  kw_form : option (option pydict);
  kw_content_type : option (option string);
  kw_headers : option (option (list header_item));
  kw_as_ : option (option string);
  kw_query : option (option pydict);
  kw_extra_environ : option (option pydict);
}.

(** The dictionary [diff] once lines 152-155 have run: [url_parameters] is
    a named parameter of the constructor, so the key comes from line 153
    only. *)
Record diff_t : Type := {
  keys : kwargs;
  url_parameters : option pydict;
}.

Record t : Type := {
  (** the attributes set by [super().__init__] *)
  call : Call.t;
  base_call : Call.t;
  diff : diff_t;
}.

Record dict : Type := {
  d_title : string;
  d_diff : diff_t;
  d_description : option string;
  d_response : option Response.dict;
}.

(** No keyword besides the named parameters. *)
Definition no_kwargs : kwargs :=
  {| kw_url := None; kw_verb := None; kw_form := None;
     kw_content_type := None; kw_headers := None; kw_as_ := None;
     kw_query := None; kw_extra_environ := None |}.

Definition set_url (kw : kwargs) (u : string) : kwargs :=
  {| kw_url := Some u; kw_verb := kw_verb kw; kw_form := kw_form kw;
     kw_content_type := kw_content_type kw; kw_headers := kw_headers kw;
     kw_as_ := kw_as_ kw; kw_query := kw_query kw;
     kw_extra_environ := kw_extra_environ kw |}.

(** Lines 152-153. *)
Definition extract_diff_url (kw : kwargs) : diff_t :=
  match kw_url kw with
  | Some u =>
      let '(u', extracted) := extract_url_parameters u in
      {| keys := set_url kw u'; url_parameters := Some extracted |}
  | None => {| keys := kw; url_parameters := None |}
  end.

(** Lines 154-155. *)
Definition update_diff_url_parameters (given : option pydict) (diff : diff_t)
  : result diff_t :=
  match given with
  | Some given' =>
      if decide (given' = ∅) then mret diff
      else
        match url_parameters diff with
        | Some ps =>
            mret {| keys := keys diff; url_parameters := Some (update ps given') |}
        | None => Raise KeyError
        end
  | None => mret diff
  end.

(** [data.update(diff)] for one key. *)
Definition updated {A} (base : option A) (diff : option (option A)) : option A :=
  match diff with
  | Some v => v
  | None => base
  end.

Definition init `{Externals} (base_call : Call.t) (title : string)
    (description : option string) (response : option Call.response_value)
    (url_parameters : option pydict) (kw : kwargs) : result t :=
  diff ← update_diff_url_parameters url_parameters (extract_diff_url kw);
  data ← Call.to_dict base_call;
  let kw' := keys diff in
  c ← Call.init title
        (default "/" (updated (Call.d_url data) (Some <$> kw_url kw')))
        (default "GET" (updated (Call.d_verb data) (Some <$> kw_verb kw')))
        (updated (Call.d_url_parameters data) (Some <$> OverriddenCall.url_parameters diff))
        (updated (Call.d_form data) (kw_form kw'))
        (updated (Call.d_content_type data) (kw_content_type kw'))
        (updated (Call.d_headers data) (kw_headers kw'))
        (updated (Call.d_as_ data) (kw_as_ kw'))
        (updated (Call.d_query data) (kw_query kw'))
        description
        (updated (Call.d_extra_environ data) (kw_extra_environ kw'))
        response;
  mret {| call := c; base_call := base_call; diff := diff |}.

(** OverriddenCall called on [base_call] with the mapping [d] as keyword
    arguments. *)
Definition of_dict `{Externals} (base_call : Call.t) (d : dict) : result t :=
  init base_call (d_title d) (d_description d)
    (Call.RMapping <$> d_response d)
    (OverriddenCall.url_parameters (d_diff d)) (keys (d_diff d)).

Definition to_dict `{Externals} (self : t) : result dict :=
  response_dict ← Call.response_to_dict (Call.response (call self));
  mret {| d_title := Call.title (call self);
          d_diff := diff self;
          d_description := Call.description (call self);
          d_response := response_dict |}.

End OverriddenCall.

(** ** class Story *)

Module Story.

Record t : Type := {
  base_call : Call.t;
  calls : list OverriddenCall.t;
}.

Record dict : Type := {
  d_base_call : option Call.dict;
  d_calls : option (list OverriddenCall.dict);
}.

(** [calls or []] *)
Definition init (base_call : Call.t) (calls : option (list OverriddenCall.t)) : t :=
  {| base_call := base_call; calls := default [] calls |}.

Definition to_dict `{Externals} (self : t) : result dict :=
  base ← Call.to_dict (base_call self);
  cs ← comprehension OverriddenCall.to_dict (calls self);
  mret {| d_base_call := Some base; d_calls := Some cs |}.

Definition from_dict `{Externals} (data : dict) : result t :=
  match d_base_call data with
  | None => Raise KeyError
  | Some base_dict =>
      base ← Call.of_dict base_dict;
      calls ←
        match d_calls data with
        | None | Some [] => mret None
        | Some ds => Some <$> comprehension (OverriddenCall.of_dict base) ds
        end;
      mret (init base calls)
  end.

End Story.

(** ** Call.invoke, on a store of objects

    [invoke] builds its request from the attributes of the Call and from
    objects those attributes refer to: it binds [headers] to the list
    [self.headers] itself when that list is not empty, and hands [self.form]
    and [self.extra_environ] themselves to the transport.  Whether the Call
    is left as it was is therefore a question about shared objects, and the
    method is modelled on a store in which attributes hold references. *)

Module Invoke.

Abbreviation loc := positive.

(** The attributes of a Call object; mutable values are references. *)
Record attributes : Type := {
  title : string;
  response : option loc;
  description : option string;
  extra_environ : option loc;
  url : string;
  url_parameters : loc;
  verb : string;
  form : option loc;
  content_type : option string;
  headers : option loc;
  as_ : option string;
  query : option loc;
}.

Inductive object : Type :=
| OList (items : list (string * string))
| ODict (d : pydict)
| OResponse (r : Call.response_value)
| OCall (a : attributes).

Abbreviation store := (gmap loc object).

Definition alloc (σ : store) (o : object) : loc * store :=
  let l := fresh (dom σ) in (l, <[l := o]> σ).

Definition read_list (σ : store) (l : option loc) : option (list (string * string)) :=
  match l with
  | Some l' => match σ !! l' with Some (OList items) => Some items | _ => None end
  | None => None
  end.

Definition read_dict (σ : store) (l : option loc) : option pydict :=
  match l with
  | Some l' => match σ !! l' with Some (ODict d) => Some d | _ => None end
  | None => None
  end.

Definition read_response (σ : store) (l : option loc) : option Call.response_value :=
  match l with
  | Some l' => match σ !! l' with Some (OResponse r) => Some r | _ => None end
  | None => None
  end.

(** [l.append(x)] *)
Definition append (σ : store) (l : loc) (x : string * string) : store :=
  match σ !! l with
  | Some (OList items) => <[l := OList (items ++ [x])]> σ
  | _ => σ
  end.

(** [c.lower()] and [s.lower()] on ASCII text. *)
Definition lower_char (c : ascii) : ascii :=
  if in_range 65 90 c then ascii_of_N (code c + 32) else c.

Fixpoint lower (s : string) : string :=
  match s with
  | EmptyString => EmptyString
  | String c s' => String (lower_char c) (lower s')
  end.

Definition not_content_type (h : string * string) : bool :=
  negb (String.eqb (lower (fst h)) "content-type").

(** An attribute that is [None] or refers to an object of the store. *)
Definition deref {A} (read : store -> option loc -> option A) (σ : store)
    (l : option loc) : option (option A) :=
  match l with
  | None => Some None
  | Some _ => option_map Some (read σ l)
  end.

(** The Call as a value: every attribute read through the store; there is
    none when an attribute refers to no object of its kind. *)
Definition snapshot (σ : store) (self : loc) : option Call.t :=
  match σ !! self with
  | Some (OCall a) =>
      ps ← read_dict σ (Some (url_parameters a));
      response' ← deref read_response σ (response a);
      extra_environ' ← deref read_dict σ (extra_environ a);
      form' ← deref read_dict σ (form a);
      headers' ← deref read_list σ (headers a);
      query' ← deref read_dict σ (query a);
      Some {| Call.title := title a;
              Call.response := response';
              Call.description := description a;
              Call.extra_environ := extra_environ';
              Call.url := url a;
              Call.url_parameters := ps;
              Call.verb := verb a;
              Call.form := form';
              Call.content_type := content_type a;
              Call.headers := headers';
              Call.as_ := as_ a;
              Call.query := query' |}
  | _ => None
  end.

Section Transport.

Context `{Externals}.

(** [urllib.parse.urlencode], and [TestApp(application)._gen_request]
    with [expect_errors=True]: given the verb, the URL, [extra_environ],
    the headers and [params] (absent when the key is not set) it answers
    with a status line, headers and a body, or raises.  It is given the
    contents of the objects: the transport reads its arguments. *)
Variable application : Type.
Variable urlencode : pydict -> string.
Variable gen_request :
  application -> string -> string -> option pydict ->
  list (string * string) -> option pydict ->
  result (string * list (string * string) * bytes).

Definition invoke (σ : store) (self : loc) (app : application)
  : result Response.t * store :=
  match σ !! self with
  | Some (OCall a) =>
      (* line 127 *)
      let url' :=
        match read_dict σ (query a) with
        | Some q =>
            if decide (q = ∅) then url a
            else url a +:+ "?" +:+ urlencode q
        | None => url a
        end in
      (* line 129: [self.headers or []] *)
      let '(headers0, σ0) :=
        match headers a, read_list σ (headers a) with
        | Some l, Some (_ :: _) => (l, σ)
        | _, _ => alloc σ (OList [])
        end in
      (* lines 130-132 *)
      let '(headers1, σ1) :=
        match content_type a with
        | Some (String _ _ as ct) =>
            let kept := filter (fun h => not_content_type h = true)
                          (default [] (read_list σ0 (Some headers0))) in
            let '(l, σ') := alloc σ0 (OList kept) in
            (l, append σ' l ("Content-Type", ct))
        | _ => (headers0, σ0)
        end in
      (* lines 134-142 *)
      let params :=
        match read_dict σ1 (form a) with
        | Some f => if decide (f = ∅) then None else Some f
        | None => None
        end in
      (* lines 145-146 *)
      let answer :=
        '(status, hs, body) ←
          gen_request app (verb a) url' (read_dict σ1 (extra_environ a))
            (default [] (read_list σ1 (Some headers1))) params;
        Response.init status (Some (map (fun h => HPair (fst h) (snd h)) hs))
          (Some (Response.BBytes body)) in
      (answer, σ1)
  | _ => (Raise AttributeError, σ)
  end.

End Transport.

End Invoke.

(** ** The collaborators, from their contracts *)

(** Modelled from the spec: bddrest.helpers, where [normalize_headers] and
    [normalize_query_string] are defined, is not among the sources.  The
    header contract asks for an ordered sequence of (name, value) pairs with
    the casing as supplied, the same again on normalized headers, and
    [to_dict] writes a header as one line, the name and the value joined by a
    colon and a blank: a pair stands for itself, a line is cut at its first
    colon and the blanks after it are dropped.  Absent headers stay absent. *)
Fixpoint lstrip (s : string) : string :=
  match s with
  | String c s' => if is_space c then lstrip s' else s
  | EmptyString => EmptyString
  end.

Fixpoint split_header_line (line : string) : string * string :=
  match line with
  | EmptyString => (EmptyString, EmptyString)
  | String c rest =>
      if Ascii.eqb c ":" then (EmptyString, lstrip rest)
      else let '(name, value) := split_header_line rest in (String c name, value)
  end.

Definition header_pair (h : header_item) : string * string :=
  match h with
  | HPair name value => (name, value)
  | HLine line => split_header_line line
  end.

Definition spec_normalize_headers (headers : option (list header_item))
  : option (list (string * string)) :=
  option_map (map header_pair) headers.

(** Modelled from the spec: the query contract of bddrest.helpers, by which
    an absent or empty query gives an absent result and a mapping is already
    in its canonical form. *)
Definition spec_normalize_query_string (query : option pydict) : option pydict :=
  match query with
  | Some q => if decide (q = ∅) then None else Some q
  | None => None
  end.

(** The default codec on ASCII data: text and bytes coincide, and a byte
    from 128 on does not decode. *)
Definition ascii_encode (s : string) : bytes := list_ascii_of_string s.

Definition ascii_decode (b : bytes) : result string :=
  if forallb (fun c => N.ltb (code c) 128) b
  then Return (string_of_list_ascii b)
  else Raise UnicodeDecodeError.

Definition spec_externals : Externals := {|
  normalize_headers := spec_normalize_headers;
  normalize_query_string := spec_normalize_query_string;
  str_encode := ascii_encode;
  bytes_decode := ascii_decode;
|}.

(** ** Shapes of text, to state what the patterns do *)

(** Every character of [s] is in class [p]. *)
Fixpoint all_chars (p : ascii -> bool) (s : string) : bool :=
  match s with
  | EmptyString => true
  | String c s' => (p c && all_chars p s')%bool
  end.

(** [s] begins with a character in class [p]. *)
Definition starts_with (p : ascii -> bool) (s : string) : bool :=
  match s with
  | String c _ => p c
  | EmptyString => false
  end.

Definition not_colon (c : ascii) : bool := negb (Ascii.eqb c ":").

(** What may stand between the colon and the value: nothing or one blank. *)
Definition optional_blank (blank : string) : Prop :=
  blank = EmptyString \/ exists c, is_space c = true /\ blank = String c EmptyString.

(** ** Integer literals *)

(** The decimal numeral of a natural number, as the standard library writes
    it: what [str(n)] is. *)
Definition numeral (n : N) : string := NilZero.string_of_uint (N.to_uint n).

(** What may follow a digit inside a literal: nothing, or a digit, or an
    underscore and a digit, and so on. *)
Inductive digit_tail : string -> Prop :=
| tail_end : digit_tail EmptyString
| tail_digit (c : ascii) (t : string) :
    is_digit c = true -> digit_tail t -> digit_tail (String c t)
| tail_underscore (c : ascii) (t : string) :
    is_digit c = true -> digit_tail t ->
    digit_tail (String "_" (String c t)).

(** Digits, with single underscores between two digits only. *)
Definition digit_groups (body : string) : Prop :=
  exists c t, body = String c t /\ is_digit c = true /\ digit_tail t.

(** The texts [int] accepts: blanks, an optional sign, digit groups,
    blanks. *)
Definition int_literal (s : string) : Prop :=
  exists pre sign body post,
    s = pre +:+ sign +:+ body +:+ post
    /\ all_chars is_int_space pre = true
    /\ (sign = EmptyString \/ sign = "+" \/ sign = "-")
    /\ digit_groups body
    /\ all_chars is_int_space post = true.

(** ** Mappings that read back *)

(** A Response whose mapping gives a Response with the same mapping. *)
Definition response_reads_back `{Externals} (r : Response.t) : Prop :=
  exists d r',
    Response.to_dict r = Return d
    /\ Response.of_dict d = Return r'
    /\ Response.to_dict r' = Return d.

(** No response, or a Response that reads back. *)
Definition response_attribute_reads_back `{Externals}
    (v : option Call.response_value) : Prop :=
  v = None \/ exists r, v = Some (Call.RObject r) /\ response_reads_back r.

(** A diff as the constructor leaves it, with a URL that holds no parameter
    any more: the key [url_parameters] is there exactly when [url] is. *)
Definition stable_diff (d : OverriddenCall.diff_t) : Prop :=
  match OverriddenCall.kw_url (OverriddenCall.keys d) with
  | Some u =>
      search_url_parameter u = false
      /\ OverriddenCall.url_parameters d ≠ None
  | None => OverriddenCall.url_parameters d = None
  end.

(** ** Sample calls *)

(** [Call('base', url='/:a/:b', url_parameters={'a': 1, 'b': 2})] *)
Definition base_a_b : Call.t :=
  {| Call.title := "base"; Call.response := None; Call.description := None;
     Call.extra_environ := None; Call.url := "/:a/:b";
     Call.url_parameters := {[ "a" := SInt 1; "b" := SInt 2 ]};
     Call.verb := "GET"; Call.form := None; Call.content_type := None;
     Call.headers := None; Call.as_ := None; Call.query := None |}.

(** [Call('t')] *)
Definition plain_call : Call.t :=
  {| Call.title := "t"; Call.response := None; Call.description := None;
     Call.extra_environ := None; Call.url := "/"; Call.url_parameters := ∅;
     Call.verb := "GET"; Call.form := None; Call.content_type := None;
     Call.headers := None; Call.as_ := None; Call.query := None |}.

(** The mapping of [Call('t')] *)
Definition plain_call_dict : Call.dict :=
  {| Call.d_title := "t"; Call.d_url := Some "/"; Call.d_verb := Some "GET";
     Call.d_url_parameters := Some ∅; Call.d_form := None;
     Call.d_content_type := None; Call.d_headers := None; Call.d_as_ := None;
     Call.d_query := None; Call.d_description := None;
     Call.d_extra_environ := None; Call.d_response := None |}.

(** [Response('200 OK', [('X-Id', '7')], 'ok')] and its mapping *)
Definition ok_response : Response.t :=
  {| Response.status := "200 OK"; Response.headers := [("X-Id", "7")];
     Response.body := Some (list_ascii_of_string "ok");
     Response.status_code := 200; Response.status_text := Some "OK";
     Response.content_type := None; Response.encoding := None |}.

Definition ok_response_dict : Response.dict :=
  {| Response.d_status := Some "200 OK";
     Response.d_headers := Some [HLine "X-Id: 7"];
     Response.d_body := Some (Response.BStr "ok") |}.

(** A store with the Call
    [Call('t', content_type='text/plain', headers=[('Content-Type', 'a/b')])]
    at 1, its URL parameters at 2 and its headers at 3. *)
Definition sample_store : Invoke.store :=
  {[ 1%positive :=
       Invoke.OCall
         {| Invoke.title := "t"; Invoke.response := None;
            Invoke.description := None; Invoke.extra_environ := None;
            Invoke.url := "/"; Invoke.url_parameters := 2%positive;
            Invoke.verb := "GET"; Invoke.form := None;
            Invoke.content_type := Some "text/plain";
            Invoke.headers := Some 3%positive; Invoke.as_ := None;
            Invoke.query := None |};
     2%positive := Invoke.ODict ∅;
     3%positive := Invoke.OList [("Content-Type", "a/b")] ]}.

Definition sample_store_call : Call.t :=
  {| Call.title := "t"; Call.response := None; Call.description := None;
     Call.extra_environ := None; Call.url := "/"; Call.url_parameters := ∅;
     Call.verb := "GET"; Call.form := None;
     Call.content_type := Some "text/plain";
     Call.headers := Some [("Content-Type", "a/b")]; Call.as_ := None;
     Call.query := None |}.

(** A transport that answers 200 OK to everything. *)
Definition ok_transport (app : unit) (verb url : string)
    (extra_environ : option pydict) (headers : list (string * string))
    (params : option pydict)
  : result (string * list (string * string) * bytes) :=
  Return ("200 OK", [], []).

(** [Call('create', url='/users', verb='POST', form={'name': 'a'},
    content_type='application/json', as_='admin', description='d',
    extra_environ={'k': 'v'})] *)
Definition post_call : Call.t :=
  {| Call.title := "create"; Call.response := None;
     Call.description := Some "d";
     Call.extra_environ := Some {[ "k" := SStr "v" ]};
     Call.url := "/users"; Call.url_parameters := ∅; Call.verb := "POST";
     Call.form := Some {[ "name" := SStr "a" ]};
     Call.content_type := Some "application/json";
     Call.headers := None; Call.as_ := Some "admin"; Call.query := None |}.

(** The keywords [verb='PUT', form=None] *)
Definition put_without_form : OverriddenCall.kwargs :=
  {| OverriddenCall.kw_url := None; OverriddenCall.kw_verb := Some "PUT";
     OverriddenCall.kw_form := Some None;
     OverriddenCall.kw_content_type := None;
     OverriddenCall.kw_headers := None; OverriddenCall.kw_as_ := None;
     OverriddenCall.kw_query := None;
     OverriddenCall.kw_extra_environ := None |}.

(** [OverriddenCall(Call('t'), 'o', url='/users/id: 1')] and its mapping *)
Definition user_diff : OverriddenCall.diff_t :=
  {| OverriddenCall.keys :=
       OverriddenCall.set_url OverriddenCall.no_kwargs "/users/:id";
     OverriddenCall.url_parameters := Some {[ "id" := SStr "1" ]} |}.

Definition user_override : OverriddenCall.t :=
  {| OverriddenCall.call :=
       {| Call.title := "o"; Call.response := None; Call.description := None;
          Call.extra_environ := None; Call.url := "/users/:id";
          Call.url_parameters := {[ "id" := SStr "1" ]}; Call.verb := "GET";
          Call.form := None; Call.content_type := None; Call.headers := None;
          Call.as_ := None; Call.query := None |};
     OverriddenCall.base_call := plain_call;
     OverriddenCall.diff := user_diff |}.

Definition user_override_dict : OverriddenCall.dict :=
  {| OverriddenCall.d_title := "o"; OverriddenCall.d_diff := user_diff;
     OverriddenCall.d_description := None;
     OverriddenCall.d_response := None |}.

(** [Story(Call('t'), [that OverriddenCall])] and its mapping *)
Definition user_story : Story.t :=
  {| Story.base_call := plain_call; Story.calls := [user_override] |}.

Definition user_story_dict : Story.dict :=
  {| Story.d_base_call := Some plain_call_dict;
     Story.d_calls := Some [user_override_dict] |}.

(** [Response('200 OK', [])] and a Call that holds it *)
Definition headerless_response : Response.t :=
  {| Response.status := "200 OK"; Response.headers := [];
     Response.body := None; Response.status_code := 200;
     Response.status_text := Some "OK"; Response.content_type := None;
     Response.encoding := None |}.

Definition call_with_headerless_response : Call.t :=
  {| Call.title := "t";
     Call.response := Some (Call.RObject headerless_response);
     Call.description := None; Call.extra_environ := None; Call.url := "/";
     Call.url_parameters := ∅; Call.verb := "GET"; Call.form := None;
     Call.content_type := None; Call.headers := None; Call.as_ := None;
     Call.query := None |}.

(** The attributes of the Call at 1 in [sample_store]. *)
Definition sample_attributes : Invoke.attributes :=
  {| Invoke.title := "t"; Invoke.response := None;
     Invoke.description := None; Invoke.extra_environ := None;
     Invoke.url := "/"; Invoke.url_parameters := 2%positive;
     Invoke.verb := "GET"; Invoke.form := None;
     Invoke.content_type := Some "text/plain";
     Invoke.headers := Some 3%positive; Invoke.as_ := None;
     Invoke.query := None |}.

(** A transport that answers 404 to everything. *)
Definition not_found_transport (app : unit) (verb url : string)
    (extra_environ : option pydict) (headers : list (string * string))
    (params : option pydict)
  : result (string * list (string * string) * bytes) :=
  Return ("404" +:+ " " +:+ "Not Found", [("X-Id", "7")],
          list_ascii_of_string "gone").

(** [Call('create', url='/users/:id', verb='POST', url_parameters={'id': 1},
    form={'name': 'a'}, content_type='application/json',
    headers=[('X-Id', '7')], as_='admin', query={'q': 'x'}, description='d',
    extra_environ={'k': 'v'}, response=Response('200 OK', [('X-Id', '7')],
    'ok'))], its mapping, and the Call which that mapping gives *)
Definition full_call : Call.t :=
  {| Call.title := "create";
     Call.response := Some (Call.RObject ok_response);
     Call.description := Some "d";
     Call.extra_environ := Some {[ "k" := SStr "v" ]};
     Call.url := "/users/:id";
     Call.url_parameters := {[ "id" := SInt 1 ]};
     Call.verb := "POST";
     Call.form := Some {[ "name" := SStr "a" ]};
     Call.content_type := Some "application/json";
     Call.headers := Some [("X-Id", "7")];
     Call.as_ := Some "admin";
     Call.query := Some {[ "q" := SStr "x" ]} |}.

Definition full_call_dict : Call.dict :=
  {| Call.d_title := "create"; Call.d_url := Some "/users/:id";
     Call.d_verb := Some "POST";
     Call.d_url_parameters := Some {[ "id" := SInt 1 ]};
     Call.d_form := Some {[ "name" := SStr "a" ]};
     Call.d_content_type := None;
     Call.d_headers := Some [HLine "X-Id: 7"];
     Call.d_as_ := Some "admin";
     Call.d_query := Some {[ "q" := SStr "x" ]};
     Call.d_description := Some "d";
     Call.d_extra_environ := None;
     Call.d_response := Some ok_response_dict |}.

Definition full_call_read_back : Call.t :=
  {| Call.title := "create";
     Call.response := Some (Call.RObject ok_response);
     Call.description := Some "d";
     Call.extra_environ := None;
     Call.url := "/users/:id";
     Call.url_parameters := {[ "id" := SInt 1 ]};
     Call.verb := "POST";
     Call.form := Some {[ "name" := SStr "a" ]};
     Call.content_type := None;
     Call.headers := Some [("X-Id", "7")];
     Call.as_ := Some "admin";
     Call.query := Some {[ "q" := SStr "x" ]} |}.

(** The mapping of [base_a_b] *)
Definition plain_a_b_dict : Call.dict :=
  {| Call.d_title := "base"; Call.d_url := Some "/:a/:b";
     Call.d_verb := Some "GET";
     Call.d_url_parameters := Some {[ "a" := SInt 1; "b" := SInt 2 ]};
     Call.d_form := None; Call.d_content_type := None;
     Call.d_headers := None; Call.d_as_ := None; Call.d_query := None;
     Call.d_description := None; Call.d_extra_environ := None;
     Call.d_response := None |}.

(** * Properties *)

(** ** Dictionaries *)

Lemma update_empty (d : pydict) : update d ∅ = d.
Proof. unfold update. apply (left_id_L ∅ (∪)). Qed.

Lemma update_lookup_given (d given : pydict) k v :
  given !! k = Some v -> update d given !! k = Some v.
Proof. intros Hk. unfold update. by apply lookup_union_Some_l. Qed.

Lemma update_lookup_kept (d given : pydict) k :
  given !! k = None -> update d given !! k = d !! k.
Proof. intros Hk. unfold update. by rewrite lookup_union_r. Qed.

(** ** OverriddenCall: the explicit [url_parameters] argument *)

Lemma url_parameters_without_url_raise_KeyError_base `{Externals}
    (base_call : Call.t) (title : string) (description : option string)
    (response : option Call.response_value) (given : pydict)
    (kw : OverriddenCall.kwargs) :
  given ≠ ∅ ->
  OverriddenCall.kw_url kw = None ->
  OverriddenCall.init base_call title description response (Some given) kw
  = Raise KeyError.
Proof.
  intros Hgiven Hurl.
  unfold OverriddenCall.init, OverriddenCall.extract_diff_url.
  rewrite Hurl. simpl.
  destruct (decide (given = ∅)) as [Hempty | _]; [contradiction | reflexivity].
Qed.

(** C10: an OverriddenCall given a non-empty [url_parameters] argument and no
    [url] keyword raises KeyError: line 155 looks up the key
    [url_parameters] of [diff], which only line 153 sets. *)
Theorem url_parameters_without_url_raise_KeyError `{Externals}
    (base_call : Call.t) (title : string) (description : option string)
    (response : option Call.response_value) (given : pydict)
    (kw : OverriddenCall.kwargs) :
  given ≠ ∅ ->
  OverriddenCall.kw_url kw = None ->
  OverriddenCall.init base_call title description response (Some given) kw
  = Raise KeyError.
Proof. apply url_parameters_without_url_raise_KeyError_base. Qed.

Lemma url_parameters_without_url_raise_KeyError_witness :
  OverriddenCall.init (H := spec_externals)
    {| Call.title := "base"; Call.response := None; Call.description := None;
       Call.extra_environ := None; Call.url := "/"; Call.url_parameters := ∅;
       Call.verb := "GET"; Call.form := None; Call.content_type := None;
       Call.headers := None; Call.as_ := None; Call.query := None |}
    "override" None None (Some {[ "id" := SInt 7 ]}) OverriddenCall.no_kwargs
  = Raise KeyError.
Proof.
  apply (url_parameters_without_url_raise_KeyError (H := spec_externals)).
  - intros Heq. apply (f_equal (fun m : pydict => m !! "id")) in Heq.
    vm_compute in Heq. discriminate.
  - reflexivity.
Defined.

(** C5: the base Call titled "get user" with the URL "/users/user_id: 1"
    gets the URL "/users/:user_id" and the parameter user_id = "1"; the
    OverriddenCall titled "get user 2" with url_parameters user_id = "2" and
    no other keyword is not constructed: it raises KeyError. *)
Theorem get_user_override_raises_KeyError `{Externals} :
  let base :=
    {| Call.title := "get user"; Call.response := None;
       Call.description := None; Call.extra_environ := None;
       Call.url := "/users/:user_id";
       Call.url_parameters := {[ "user_id" := SStr "1" ]};
       Call.verb := "GET"; Call.form := None; Call.content_type := None;
       Call.headers := normalize_headers None; Call.as_ := None;
       Call.query := normalize_query_string None |} in
  Call.init "get user" "/users/user_id: 1" "GET"
    None None None None None None None None None = Return base
  /\ OverriddenCall.init base "get user 2" None None
       (Some {[ "user_id" := SStr "2" ]}) OverriddenCall.no_kwargs
     = Raise KeyError.
Proof.
  split.
  - vm_compute. reflexivity.
  - apply url_parameters_without_url_raise_KeyError_base; [| reflexivity].
    intros Heq. apply (f_equal (fun m : pydict => m !! "user_id")) in Heq.
    vm_compute in Heq. discriminate.
Qed.

(** ** URL parameters *)

(** C2, at the URL "/a:1/ba:2": the substitution for the key [a] also
    rewrites the tail of the segment [ba:2], the substitution for [ba] then
    finds nothing, and the URL that comes back still holds a parameter,
    [/b:a]. *)
Theorem parameter_syntax_remains :
  extract_url_parameters "/a:1/ba:2"
  = ("/:a/b:a", {[ "a" := SStr "1"; "ba" := SStr "2" ]})
  /\ search_url_parameter "/:a/b:a" = true
  /\ findall_url_parameter "/:a/b:a" = [("b", "a")].
Proof. repeat split; vm_compute; reflexivity. Qed.

(** A URL without a parameter comes back as it is, with no parameters. *)
Lemma extract_url_parameters_none (url : string) :
  search_url_parameter url = false ->
  extract_url_parameters url = (url, ∅).
Proof. intros Hnone. unfold extract_url_parameters. by rewrite Hnone. Qed.

(** The parameters are those of the matches, in order, later ones winning;
    they do not depend on the rewriting of the URL. *)
Lemma extract_fold_parameters (kvs : list (string * string)) (url : string)
    (acc : pydict) :
  snd (fold_left extract_step kvs (url, acc))
  = fold_left (fun ps kv => <[fst kv := SStr (snd kv)]> ps) kvs acc.
Proof.
  revert url acc. induction kvs as [| [k v] kvs IH]; intros url acc; simpl.
  - reflexivity.
  - apply IH.
Qed.

(** ** Call: from a mapping and back *)

(** C3, at the Call titled "t" with the URL "/a:1/ba:2": its mapping has
    the URL "/:a/b:a"; the Call built from that mapping extracts a parameter
    once more, so its own mapping has the URL "/:a/:b" and one parameter
    more. *)
Theorem call_round_trip_changes_url `{Externals} :
  exists (c c' : Call.t) (d d' : Call.dict),
    Call.init "t" "/a:1/ba:2" "GET"
      None None None None None None None None None = Return c
    /\ Call.to_dict c = Return d
    /\ Call.of_dict d = Return c'
    /\ Call.to_dict c' = Return d'
    /\ Call.d_url d = Some "/:a/b:a"
    /\ Call.d_url d' = Some "/:a/:b"
    /\ Call.d_url_parameters d = Some {[ "a" := SStr "1"; "ba" := SStr "2" ]}
    /\ Call.d_url_parameters d'
       = Some {[ "a" := SStr "1"; "b" := SStr "a"; "ba" := SStr "2" ]}
    /\ d' ≠ d.
Proof.
  do 4 eexists.
  split; [vm_compute; reflexivity |].
  split; [vm_compute; reflexivity |].
  split; [vm_compute; reflexivity |].
  split; [vm_compute; reflexivity |].
  split; [reflexivity |].
  split; [reflexivity |].
  split; [vm_compute; reflexivity |].
  split; [vm_compute; reflexivity |].
  intros Heq. apply (f_equal Call.d_url) in Heq. vm_compute in Heq. discriminate.
Qed.

(** A Response without headers is written without the key [headers], which
    the constructor requires: the Call built from the mapping of a Call that
    holds such a Response raises TypeError. *)
Lemma response_without_headers_is_not_read_back :
  exists (r : Response.t) (c : Call.t) (d : Call.dict),
    Response.init (H := spec_externals) "200 OK" (Some []) None = Return r
    /\ Call.init (H := spec_externals) "t" "/" "GET" None None None None None
         None None None (Some (Call.RObject r)) = Return c
    /\ Call.to_dict (H := spec_externals) c = Return d
    /\ Call.d_response d
       = Some {| Response.d_status := Some "200 OK";
                 Response.d_headers := None; Response.d_body := None |}
    /\ Call.of_dict (H := spec_externals) d = Raise TypeError.
Proof.
  do 3 eexists.
  split; [vm_compute; reflexivity |].
  split; [vm_compute; reflexivity |].
  split; [vm_compute; reflexivity |].
  split; vm_compute; reflexivity.
Qed.

(** ** Story: to a mapping and back *)

(** C4, at the story of the Call titled "t" and one OverriddenCall with the
    keyword url = "/a:1/ba:2": the story's mapping records the diff with the
    URL "/:a/b:a" and the parameters a and ba; read back, the diff's URL is
    extracted again, and the mapping of the story read back records the URL
    "/:a/:b" and a third parameter. *)
Theorem story_round_trip_changes_diff `{Externals} :
  exists (base : Call.t) (oc : OverriddenCall.t) (s' : Story.t)
         (D D' : Story.dict),
    Call.init "t" "/" "GET"
      None None None None None None None None None = Return base
    /\ OverriddenCall.init base "o" None None None
         (OverriddenCall.set_url OverriddenCall.no_kwargs "/a:1/ba:2")
       = Return oc
    /\ Story.to_dict (Story.init base (Some [oc])) = Return D
    /\ Story.from_dict D = Return s'
    /\ Story.to_dict s' = Return D'
    /\ option_map (map OverriddenCall.d_diff) (Story.d_calls D)
       = Some [ {| OverriddenCall.keys :=
                     OverriddenCall.set_url OverriddenCall.no_kwargs "/:a/b:a";
                   OverriddenCall.url_parameters :=
                     Some {[ "a" := SStr "1"; "ba" := SStr "2" ]} |} ]
    /\ option_map (map OverriddenCall.d_diff) (Story.d_calls D')
       = Some [ {| OverriddenCall.keys :=
                     OverriddenCall.set_url OverriddenCall.no_kwargs "/:a/:b";
                   OverriddenCall.url_parameters :=
                     Some {[ "a" := SStr "1"; "b" := SStr "a";
                             "ba" := SStr "2" ]} |} ]
    /\ D' ≠ D.
Proof.
  do 5 eexists.
  split; [vm_compute; reflexivity |].
  split; [vm_compute; reflexivity |].
  split; [vm_compute; reflexivity |].
  split; [vm_compute; reflexivity |].
  split; [vm_compute; reflexivity |].
  split; [vm_compute; reflexivity |].
  split; [vm_compute; reflexivity |].
  intros Heq.
  apply (f_equal (fun D => option_map (map (fun d =>
           OverriddenCall.kw_url (OverriddenCall.keys (OverriddenCall.d_diff d))))
           (Story.d_calls D))) in Heq.
  vm_compute in Heq. discriminate.
Qed.

(** Without the key [calls], or with an empty list under it, the story read
    from a mapping has no calls. *)
Lemma from_dict_without_calls `{Externals} (base_dict : Call.dict)
    (calls : option (list OverriddenCall.dict)) (base : Call.t) :
  calls = None \/ calls = Some [] ->
  Call.of_dict base_dict = Return base ->
  Story.from_dict {| Story.d_base_call := Some base_dict; Story.d_calls := calls |}
  = Return {| Story.base_call := base; Story.calls := [] |}.
Proof.
  intros Hcalls Hbase. unfold Story.from_dict. simpl. rewrite Hbase. simpl.
  destruct Hcalls as [-> | ->]; reflexivity.
Qed.

(** ** Response: content type *)

(** The loop of the constructor on headers none of which is named
    Content-Type, letter for letter. *)
Lemma scan_content_type_no_name (hs : list (string * string)) :
  Forall (fun h => fst h ≠ "Content-Type") hs ->
  Response.scan_content_type hs = (None, None).
Proof.
  induction 1 as [| [k v] hs Hk _ IH]; simpl; [reflexivity |].
  destruct (String.eqb_spec k "Content-Type") as [-> | _]; [| exact IH].
  simpl in Hk. contradiction.
Qed.

(** C6: with the header Content-Type: application/json; charset=utf-8 the
    Response has the content type application/json and the encoding utf-8,
    with Content-Type: text/plain the content type text/plain and no
    encoding; with the same header named content-type, which the
    normalization hands over as it was supplied, it has neither: the
    constructor compares the name with Content-Type letter for letter. *)
Theorem content_type_name_is_compared_exactly `{Externals} (v : string) :
  normalize_headers (Some [HPair "Content-Type" "application/json; charset=utf-8"])
    = Some [("Content-Type", "application/json; charset=utf-8")] ->
  normalize_headers (Some [HPair "Content-Type" "text/plain"])
    = Some [("Content-Type", "text/plain")] ->
  normalize_headers (Some [HPair "content-type" v]) = Some [("content-type", v)] ->
  (exists r,
     Response.init "200 OK"
       (Some [HPair "Content-Type" "application/json; charset=utf-8"]) None
     = Return r
     /\ Response.content_type r = Some "application/json"
     /\ Response.encoding r = Some "utf-8")
  /\ (exists r,
       Response.init "200 OK" (Some [HPair "Content-Type" "text/plain"]) None
       = Return r
       /\ Response.content_type r = Some "text/plain"
       /\ Response.encoding r = None)
  /\ (exists r,
       Response.init "200 OK" (Some [HPair "content-type" v]) None = Return r
       /\ Response.content_type r = None
       /\ Response.encoding r = None).
Proof.
  intros Hjson Hplain Hlower.
  unfold Response.init. rewrite Hjson, Hplain, Hlower.
  repeat split; eexists; (split; [vm_compute; reflexivity |]); split; reflexivity.
Qed.

Lemma content_type_name_is_compared_exactly_witness :
  exists r,
    Response.init (H := spec_externals) "200 OK"
      (Some [HPair "content-type" "application/json; charset=utf-8"]) None
    = Return r
    /\ Response.content_type r = None
    /\ Response.encoding r = None.
Proof.
  apply (content_type_name_is_compared_exactly (H := spec_externals)
           "application/json; charset=utf-8"); reflexivity.
Defined.

(** ** OverriddenCall: the effective URL parameters *)

Lemma call_init_url_parameters `{Externals} (title url verb : string)
    (url_parameters form : option pydict) (content_type : option string)
    (headers : option (list header_item)) (as_ : option string)
    (query : option pydict) (description : option string)
    (extra_environ : option pydict) (response r : option Call.response_value) :
  Call.set_response response = Return r ->
  exists c,
    Call.init title url verb url_parameters form content_type headers as_
      query description extra_environ response = Return c
    /\ Call.url c = fst (extract_url_parameters url)
    /\ Call.url_parameters c
       = update (snd (extract_url_parameters url)) (default ∅ url_parameters)
    /\ Call.verb c = verb
    /\ Call.response c = r.
Proof.
  intros Hr. unfold Call.init. rewrite Hr. simpl.
  destruct (extract_url_parameters url) as [url' extracted].
  eexists. split; [reflexivity |]. simpl. repeat split.
  destruct url_parameters as [given |]; simpl.
  - destruct (decide (given = ∅)) as [-> | _]; [by rewrite update_empty | done].
  - by rewrite update_empty.
Qed.

(** C1, as the code has it: when the keywords of an OverriddenCall hold a
    URL, its diff holds as [url_parameters] those extracted from that URL
    updated with the [url_parameters] argument, and the OverriddenCall has
    as URL parameters those of its diff, laid over the ones that the Call
    constructor extracts once more from the rewritten URL; when the
    rewritten URL holds no parameter any more, they are those of the diff
    exactly.  The URL parameters of the base Call take no part in them. *)
Theorem overridden_url_parameters_replace_base `{Externals}
    (base_call : Call.t) (title : string) (description : option string)
    (response r : option Call.response_value) (given : option pydict)
    (kw : OverriddenCall.kwargs) (u : string) (data : Call.dict) :
  OverriddenCall.kw_url kw = Some u ->
  Call.to_dict base_call = Return data ->
  Call.set_response response = Return r ->
  exists oc,
    OverriddenCall.init base_call title description response given kw
    = Return oc
    /\ OverriddenCall.url_parameters (OverriddenCall.diff oc)
       = Some (update (snd (extract_url_parameters u)) (default ∅ given))
    /\ Call.url_parameters (OverriddenCall.call oc)
       = update
           (snd (extract_url_parameters (fst (extract_url_parameters u))))
           (update (snd (extract_url_parameters u)) (default ∅ given))
    /\ (search_url_parameter (fst (extract_url_parameters u)) = false ->
        Call.url_parameters (OverriddenCall.call oc)
        = update (snd (extract_url_parameters u)) (default ∅ given)).
Proof.
  intros Hurl Hdata Hr.
  unfold OverriddenCall.init, OverriddenCall.extract_diff_url. rewrite Hurl.
  destruct (extract_url_parameters u) as [u' extracted] eqn:Hu. simpl.
  set (merged := update extracted (default ∅ given)).
  assert (Hdiff : OverriddenCall.update_diff_url_parameters given
            {| OverriddenCall.keys := OverriddenCall.set_url kw u';
               OverriddenCall.url_parameters := Some extracted |}
          = Return {| OverriddenCall.keys := OverriddenCall.set_url kw u';
                      OverriddenCall.url_parameters := Some merged |}).
  { unfold OverriddenCall.update_diff_url_parameters, merged.
    destruct given as [given' |]; simpl.
    - destruct (decide (given' = ∅)) as [-> | _]; [by rewrite update_empty | done].
    - by rewrite update_empty. }
  rewrite Hdiff. simpl. rewrite Hdata. simpl.
  edestruct (call_init_url_parameters title u'
               (default "GET" (OverriddenCall.updated (Call.d_verb data)
                  (Some <$> OverriddenCall.kw_verb kw)))
               (Some merged)) as (c & Hc & _ & Hps & _); [exact Hr |].
  rewrite Hc. simpl. eexists. split; [reflexivity |]. simpl.
  split; [reflexivity |]. split; [exact Hps |].
  intros Hstable. rewrite Hps, (extract_url_parameters_none u' Hstable).
  simpl. unfold update. apply (right_id_L ∅ (∪)).
Qed.

Lemma overridden_url_parameters_replace_base_witness :
  exists oc,
    OverriddenCall.init (H := spec_externals) base_a_b "override" None None
      (Some {[ "a" := SInt 99 ]})
      (OverriddenCall.set_url OverriddenCall.no_kwargs "/:a/:b")
    = Return oc
    /\ OverriddenCall.url_parameters (OverriddenCall.diff oc)
       = Some {[ "a" := SInt 99 ]}
    /\ Call.url_parameters (OverriddenCall.call oc) = {[ "a" := SInt 99 ]}.
Proof.
  destruct (overridden_url_parameters_replace_base (H := spec_externals)
              base_a_b "override" None None None (Some {[ "a" := SInt 99 ]})
              (OverriddenCall.set_url OverriddenCall.no_kwargs "/:a/:b")
              "/:a/:b" plain_a_b_dict eq_refl eq_refl eq_refl)
    as (oc & Hoc & Hdiff & _ & Hstable).
  exists oc. split; [exact Hoc |]. split.
  - rewrite Hdiff. vm_compute. reflexivity.
  - rewrite (Hstable eq_refl). vm_compute. reflexivity.
Defined.

(** C1 fails on the code.  The base Call has the URL parameters a = 1 and
    b = 2.  The OverriddenCall given the URL parameters a = 99 and nothing
    else is not constructed: KeyError.  Given the URL of the base Call as
    well it is constructed, its diff carries a = 99, and it has a = 99
    alone: b is not inherited. *)
Lemma base_url_parameters_are_not_inherited :
  Call.init (H := spec_externals) "base" "/:a/:b" "GET"
    (Some {[ "a" := SInt 1; "b" := SInt 2 ]})
    None None None None None None None None = Return base_a_b
  /\ OverriddenCall.init (H := spec_externals) base_a_b "override" None None
       (Some {[ "a" := SInt 99 ]}) OverriddenCall.no_kwargs
     = Raise KeyError
  /\ exists oc,
       OverriddenCall.init (H := spec_externals) base_a_b "override" None None
         (Some {[ "a" := SInt 99 ]})
         (OverriddenCall.set_url OverriddenCall.no_kwargs "/:a/:b")
       = Return oc
       /\ OverriddenCall.url_parameters (OverriddenCall.diff oc)
          = Some {[ "a" := SInt 99 ]}
       /\ Call.url (OverriddenCall.call oc) = Call.url base_a_b
       /\ Call.url_parameters (OverriddenCall.call oc) = {[ "a" := SInt 99 ]}
       /\ Call.url_parameters (OverriddenCall.call oc)
          ≠ {[ "a" := SInt 99; "b" := SInt 2 ]}.
Proof.
  split; [vm_compute; reflexivity |].
  split; [vm_compute; reflexivity |].
  eexists.
  split; [vm_compute; reflexivity |].
  split; [vm_compute; reflexivity |].
  split; [vm_compute; reflexivity |].
  split; [vm_compute; reflexivity |].
  intros Heq. apply (f_equal (fun m : pydict => m !! "b")) in Heq.
  vm_compute in Heq. discriminate.
Qed.

(** ** to_dict: which keys are written *)

Lemma response_to_dict_inv `{Externals} (r : Response.t) (d : Response.dict) :
  Response.to_dict r = Return d ->
  Response.d_status d = Some (Response.status r)
  /\ Response.d_headers d
     = match Response.headers r with
       | [] => None
       | hs => Some (header_lines hs)
       end
  /\ (((Response.body r = None \/ Response.body r = Some [])
       /\ Response.d_body d = None)
      \/ (exists b text,
            Response.body r = Some b /\ b ≠ []
            /\ bytes_decode b = Return text
            /\ Response.d_body d = Some (Response.BStr text))).
Proof.
  unfold Response.to_dict. intros Hd.
  destruct (Response.body r) as [[| b0 b] |]; simpl in Hd.
  - injection Hd as <-. simpl. repeat split; left; split; auto.
  - destruct (bytes_decode (b0 :: b)) as [text |] eqn:Htext; simpl in Hd;
      [| discriminate].
    injection Hd as <-. simpl. repeat split. right.
    exists (b0 :: b), text. repeat split; auto.
  - injection Hd as <-. simpl. repeat split; left; split; auto.
Qed.

Lemma call_to_dict_inv `{Externals} (c : Call.t) (d : Call.dict) :
  Call.to_dict c = Return d ->
  exists rd,
    Call.response_to_dict (Call.response c) = Return rd
    /\ d = {| Call.d_title := Call.title c;
              Call.d_url := Some (Call.url c);
              Call.d_verb := Some (Call.verb c);
              Call.d_url_parameters := Some (Call.url_parameters c);
              Call.d_form := Call.form c;
              Call.d_content_type := None;
              Call.d_headers := option_map header_lines (Call.headers c);
              Call.d_as_ := Call.as_ c;
              Call.d_query := Call.query c;
              Call.d_description := Call.description c;
              Call.d_extra_environ := None;
              Call.d_response := rd |}.
Proof.
  unfold Call.to_dict. intros Hd.
  destruct (Call.response_to_dict (Call.response c)) as [rd |]; simpl in Hd;
    [| discriminate].
  exists rd. split; [reflexivity |]. by injection Hd as <-.
Qed.

(** C7, as the code has it: the mapping of a Call has [url_parameters]
    always, and [form], [headers], [as_], [query] and [description] exactly
    when the attribute is not [None], an empty collection included; the
    mapping of a Response has [headers] exactly when there is a header and
    [body], the decoded text, exactly when the body is neither absent nor
    empty; and both mappings are produced whenever there is no body to
    decode. *)
Theorem to_dict_written_keys `{Externals} :
  (forall (c : Call.t) (d : Call.dict),
     Call.to_dict c = Return d ->
     Call.d_url_parameters d = Some (Call.url_parameters c)
     /\ Call.d_form d = Call.form c
     /\ Call.d_headers d = option_map header_lines (Call.headers c)
     /\ Call.d_as_ d = Call.as_ c
     /\ Call.d_query d = Call.query c
     /\ Call.d_description d = Call.description c)
  /\ (forall (r : Response.t) (d : Response.dict),
        Response.to_dict r = Return d ->
        (Response.d_headers d = None <-> Response.headers r = [])
        /\ (Response.headers r ≠ [] ->
            Response.d_headers d = Some (header_lines (Response.headers r)))
        /\ (Response.d_body d = None <->
            Response.body r = None \/ Response.body r = Some [])
        /\ (forall b, Response.body r = Some b -> b ≠ [] ->
            exists text, bytes_decode b = Return text
                         /\ Response.d_body d = Some (Response.BStr text)))
  /\ (forall (r : Response.t),
        Response.body r = None \/ Response.body r = Some [] ->
        exists d, Response.to_dict r = Return d)
  /\ (forall (c : Call.t),
        Call.response c = None -> exists d, Call.to_dict c = Return d).
Proof.
  split; [| split; [| split]].
  - intros c d Hd. apply call_to_dict_inv in Hd as (rd & _ & ->). simpl.
    repeat split.
  - intros r d Hd. apply response_to_dict_inv in Hd as (_ & Hhs & Hbody).
    rewrite Hhs. split; [| split; [| split]].
    + destruct (Response.headers r); split; intros; (reflexivity || discriminate).
    + destruct (Response.headers r); intros; [contradiction | reflexivity].
    + destruct Hbody as [[Hb ->] | (b & text & Hb & Hne & _ & ->)].
      * split; auto.
      * split; [discriminate |]. intros [Hb' | Hb']; rewrite Hb in Hb'.
        -- discriminate.
        -- injection Hb' as ->. contradiction.
    + intros b Hb Hne.
      destruct Hbody as [[Hb' _] | (b' & text & Hb' & _ & Htext & ->)].
      * destruct Hb' as [Hb' | Hb']; rewrite Hb in Hb'; [discriminate |].
        injection Hb' as ->. contradiction.
      * rewrite Hb in Hb'. injection Hb' as ->. exists text. auto.
  - intros r [Hb | Hb]; unfold Response.to_dict; rewrite Hb; eexists; reflexivity.
  - intros c Hc. unfold Call.to_dict. rewrite Hc. simpl. eexists. reflexivity.
Qed.

Lemma to_dict_written_keys_witness :
  (Call.d_url_parameters plain_call_dict = Some (Call.url_parameters plain_call)
   /\ Call.d_form plain_call_dict = Call.form plain_call)
  /\ (Response.headers ok_response ≠ [] ->
      Response.d_headers ok_response_dict
      = Some (header_lines (Response.headers ok_response)))
  /\ (exists d, Call.to_dict (H := spec_externals) plain_call = Return d).
Proof.
  destruct (to_dict_written_keys (H := spec_externals))
    as (Hcall & Hresponse & _ & Htotal).
  split; [| split].
  - destruct (Hcall plain_call plain_call_dict) as (Hps & Hform & _);
      [reflexivity |].
    split; [exact Hps | exact Hform].
  - destruct (Hresponse ok_response ok_response_dict) as (_ & Hhs & _);
      [reflexivity |].
    exact Hhs.
  - apply Htotal. reflexivity.
Defined.

(** C7 fails on the code: the Call built from a title alone, without URL
    parameters, writes [url_parameters] as an empty mapping, and a Call with
    an empty form writes [form] as an empty mapping. *)
Lemma absent_url_parameters_are_written_empty :
  exists c d c' d',
    Call.init (H := spec_externals) "t" "/" "GET"
      None None None None None None None None None = Return c
    /\ Call.to_dict (H := spec_externals) c = Return d
    /\ Call.d_url_parameters d = Some ∅
    /\ Call.init (H := spec_externals) "t" "/" "GET"
         None (Some ∅) None None None None None None None = Return c'
    /\ Call.to_dict (H := spec_externals) c' = Return d'
    /\ Call.d_form d' = Some ∅.
Proof.
  do 4 eexists.
  split; [vm_compute; reflexivity |].
  split; [vm_compute; reflexivity |].
  split; [vm_compute; reflexivity |].
  split; [vm_compute; reflexivity |].
  split; vm_compute; reflexivity.
Qed.

(** ** Response: the status line *)

Lemma all_int_space_other (s : string) :
  has_other_char s = true -> all_int_space s = false.
Proof.
  unfold all_int_space. induction s as [| c s IH]; simpl; [discriminate |].
  intros Hother. apply orb_true_iff in Hother as [Hc | Hs].
  - unfold is_int_char in Hc. apply negb_true_iff in Hc.
    repeat (apply orb_false_iff in Hc as [Hc ?]).
    replace (is_int_space c) with false by congruence. reflexivity.
  - rewrite (IH Hs). apply andb_false_r.
Qed.

Lemma int_digits_other (s : string) (acc : Z) (after_digit : bool) :
  has_other_char s = true -> int_digits acc after_digit s = None.
Proof.
  revert acc after_digit. induction s as [| c s IH]; intros acc after_digit;
    simpl; [discriminate |].
  intros Hother. apply orb_true_iff in Hother as [Hc | Hs].
  - unfold is_int_char in Hc. apply negb_true_iff in Hc.
    repeat (apply orb_false_iff in Hc as [Hc ?]).
    replace (is_digit c) with false by congruence.
    replace (Ascii.eqb c "_") with false by congruence.
    replace (is_int_space c) with false by congruence. reflexivity.
  - destruct (is_digit c); [by apply IH |].
    destruct (Ascii.eqb c "_").
    + destruct after_digit; [by apply IH | reflexivity].
    + rewrite (all_int_space_other s Hs). by rewrite andb_false_r.
Qed.

Lemma int_lstrip_other (s : string) :
  has_other_char s = true -> has_other_char (int_lstrip s) = true.
Proof.
  induction s as [| c s IH]; simpl; [discriminate |].
  intros Hother. destruct (is_int_space c) eqn:Hc; [| exact Hother].
  apply IH. apply orb_true_iff in Hother as [Hc' | Hs]; [| exact Hs].
  unfold is_int_char in Hc'. rewrite Hc in Hc'.
  by rewrite !orb_true_r in Hc'.
Qed.

Lemma int_cases (s : string) :
  int s = match int_digits 0 false (int_lstrip s) with
          | Some z => Return z
          | None => Raise ValueError
          end
  \/ (exists r, int_lstrip s = String "-" r
        /\ int s = match int_digits 0 false r with
                   | Some z => Return (- z)
                   | None => Raise ValueError
                   end)
  \/ (exists r, int_lstrip s = String "+" r
        /\ int s = match int_digits 0 false r with
                   | Some z => Return z
                   | None => Raise ValueError
                   end).
Proof.
  unfold int. destruct (int_lstrip s) as [| c r]; [by left |].
  destruct (Ascii.eqb_spec c "-") as [-> | Hminus].
  { right. left. exists r. split; [reflexivity |].
    simpl. by destruct (int_digits 0 false r). }
  destruct (Ascii.eqb_spec c "+") as [-> | Hplus].
  { right. right. exists r. split; reflexivity. }
  left. destruct c as [[] [] [] [] [] [] [] []]; try reflexivity; congruence.
Qed.

Lemma int_other (s : string) :
  has_other_char s = true -> int s = Raise ValueError.
Proof.
  intros Hother. apply int_lstrip_other in Hother.
  destruct (int_cases s) as [-> | [(r & Hr & ->) | (r & Hr & ->)]].
  - by rewrite int_digits_other.
  - rewrite Hr in Hother. simpl in Hother. by rewrite int_digits_other.
  - rewrite Hr in Hother. simpl in Hother. by rewrite int_digits_other.
Qed.

Lemma is_digit_not_int_space (c : ascii) :
  is_digit c = true -> is_int_space c = false.
Proof.
  unfold is_digit, is_int_space, in_range.
  intros Hc. apply andb_true_iff in Hc as [Hlo Hhi].
  apply N.leb_le in Hlo, Hhi.
  apply orb_false_iff. split.
  - apply andb_false_iff. right. apply N.leb_gt. lia.
  - apply N.eqb_neq. lia.
Qed.

Lemma is_digit_not_space_char (c : ascii) :
  is_digit c = true -> Ascii.eqb c " " = false.
Proof.
  intros Hc. destruct (Ascii.eqb_spec c " ") as [-> | _]; [| reflexivity].
  vm_compute in Hc. discriminate.
Qed.

Lemma int_digits_all_digits (s : string) (acc : Z) (after_digit : bool) :
  all_digits s = true ->
  s ≠ EmptyString \/ after_digit = true ->
  int_digits acc after_digit s = Some (decimal_from acc s).
Proof.
  revert acc after_digit. induction s as [| c s IH]; intros acc after_digit;
    simpl.
  - intros _ [Hne | ->]; [contradiction | reflexivity].
  - intros Hall _. apply andb_true_iff in Hall as [Hc Hs]. rewrite Hc.
    apply IH; [exact Hs | by right].
Qed.

Lemma int_all_digits (s : string) :
  all_digits s = true -> s ≠ EmptyString -> int s = Return (decimal s).
Proof.
  intros Hall Hne. destruct s as [| c s]; [contradiction |].
  pose proof Hall as Hc. simpl in Hc. apply andb_true_iff in Hc as [Hc _].
  assert (Hstrip : int_lstrip (String c s) = String c s).
  { simpl. by rewrite (is_digit_not_int_space c Hc). }
  destruct (int_cases (String c s)) as [-> | [(r & Hr & _) | (r & Hr & _)]].
  - rewrite Hstrip, int_digits_all_digits; [reflexivity | exact Hall | by left].
  - rewrite Hstrip in Hr. injection Hr as -> _. vm_compute in Hc. discriminate.
  - rewrite Hstrip in Hr. injection Hr as -> _. vm_compute in Hc. discriminate.
Qed.

Lemma contains_space_all_digits (s : string) :
  all_digits s = true -> contains_space s = false.
Proof.
  induction s as [| c s IH]; simpl; [reflexivity |].
  intros Hall. apply andb_true_iff in Hall as [Hc Hs].
  by rewrite (is_digit_not_space_char c Hc), IH.
Qed.

Lemma contains_space_app (s rest : string) :
  contains_space (s +:+ " " +:+ rest) = true.
Proof.
  induction s as [| c s IH]; simpl; [reflexivity |].
  rewrite IH. apply orb_true_r.
Qed.

Lemma split_space_not_nil (s : string) : split_space s ≠ [].
Proof.
  induction s as [| c s IH]; simpl; [discriminate |].
  destruct (Ascii.eqb c " "); [discriminate |].
  destruct (split_space s); [contradiction | discriminate].
Qed.

(** Joining with a space what was split at the spaces gives the text back. *)
Lemma join_split_space (s : string) : join " " (split_space s) = s.
Proof.
  induction s as [| c s IH]; simpl; [reflexivity |].
  pose proof (split_space_not_nil s) as Hne.
  destruct (Ascii.eqb_spec c " ") as [-> | _].
  - destruct (split_space s) as [| part parts]; [contradiction |].
    cbn [join]. cbn [join] in IH. by rewrite IH.
  - destruct (split_space s) as [| part parts]; [contradiction |].
    destruct parts as [| part' parts]; cbn [join] in *; by rewrite <- IH.
Qed.

(** The text before the first space is the first part; the parts after it
    are those of the text after that space. *)
Lemma split_space_first (first rest : string) :
  contains_space first = false ->
  split_space (first +:+ " " +:+ rest) = first :: split_space rest.
Proof.
  induction first as [| c first IH]; simpl; [reflexivity |].
  intros Hc. apply orb_false_iff in Hc as [Hc Hfirst].
  rewrite Hc. by rewrite (IH Hfirst).
Qed.

Lemma parse_status_code_text (digits rest : string) :
  digits ≠ EmptyString -> all_digits digits = true ->
  Response.parse_status (digits +:+ " " +:+ rest)
  = Return (decimal digits, Some rest).
Proof.
  intros Hne Hall. unfold Response.parse_status.
  rewrite contains_space_app.
  rewrite split_space_first by by apply contains_space_all_digits.
  simpl. rewrite (int_all_digits digits Hall Hne). simpl.
  by rewrite join_split_space.
Qed.

Lemma parse_status_code_only (digits : string) :
  digits ≠ EmptyString -> all_digits digits = true ->
  Response.parse_status digits = Return (decimal digits, None).
Proof.
  intros Hne Hall. unfold Response.parse_status.
  rewrite (contains_space_all_digits digits Hall).
  by rewrite (int_all_digits digits Hall Hne).
Qed.

(** ** Call.invoke: the Call is left as it was *)

Lemma alloc_fresh (σ : Invoke.store) (o : Invoke.object) :
  σ !! fst (Invoke.alloc σ o) = None.
Proof.
  unfold Invoke.alloc. simpl. apply not_elem_of_dom. apply is_fresh.
Qed.

Lemma alloc_preserves (σ : Invoke.store) (o : Invoke.object) :
  σ ⊆ snd (Invoke.alloc σ o).
Proof.
  unfold Invoke.alloc. simpl. apply insert_subseteq.
  apply not_elem_of_dom. apply is_fresh.
Qed.

(** Appending to a list that has just been allocated touches no object that
    was there before. *)
Lemma alloc_append_preserves (σ : Invoke.store)
    (items : list (string * string)) (x : string * string) :
  σ ⊆ Invoke.append (snd (Invoke.alloc σ (Invoke.OList items)))
        (fst (Invoke.alloc σ (Invoke.OList items))) x.
Proof.
  pose proof (alloc_fresh σ (Invoke.OList items)) as Hfresh.
  unfold Invoke.append, Invoke.alloc in *. simpl in *.
  rewrite lookup_insert_eq. rewrite insert_insert_eq.
  by apply insert_subseteq.
Qed.

Lemma read_list_preserved (σ σ' : Invoke.store) (l : option Invoke.loc) v :
  σ ⊆ σ' -> Invoke.read_list σ l = Some v -> Invoke.read_list σ' l = Some v.
Proof.
  intros Hsub. unfold Invoke.read_list. destruct l as [l |]; [| done].
  destruct (σ !! l) as [o |] eqn:Hl; [| done].
  by rewrite (lookup_weaken _ _ _ _ Hl Hsub).
Qed.

Lemma read_dict_preserved (σ σ' : Invoke.store) (l : option Invoke.loc) v :
  σ ⊆ σ' -> Invoke.read_dict σ l = Some v -> Invoke.read_dict σ' l = Some v.
Proof.
  intros Hsub. unfold Invoke.read_dict. destruct l as [l |]; [| done].
  destruct (σ !! l) as [o |] eqn:Hl; [| done].
  by rewrite (lookup_weaken _ _ _ _ Hl Hsub).
Qed.

Lemma read_response_preserved (σ σ' : Invoke.store) (l : option Invoke.loc) v :
  σ ⊆ σ' ->
  Invoke.read_response σ l = Some v -> Invoke.read_response σ' l = Some v.
Proof.
  intros Hsub. unfold Invoke.read_response. destruct l as [l |]; [| done].
  destruct (σ !! l) as [o |] eqn:Hl; [| done].
  by rewrite (lookup_weaken _ _ _ _ Hl Hsub).
Qed.

Lemma deref_preserved {A} (read : Invoke.store -> option Invoke.loc -> option A)
    (σ σ' : Invoke.store) (l : option Invoke.loc) v :
  (forall l' v', read σ l' = Some v' -> read σ' l' = Some v') ->
  Invoke.deref read σ l = Some v -> Invoke.deref read σ' l = Some v.
Proof.
  intros Hread. unfold Invoke.deref. destruct l as [l |]; [| done].
  destruct (read σ (Some l)) as [x |] eqn:Hl; [| done].
  by rewrite (Hread _ _ Hl).
Qed.

(** The Call read through a store is the same through any store that holds
    the same objects and more. *)
Lemma snapshot_preserved (σ σ' : Invoke.store) (self : Invoke.loc) (c : Call.t) :
  σ ⊆ σ' -> Invoke.snapshot σ self = Some c -> Invoke.snapshot σ' self = Some c.
Proof.
  intros Hsub. unfold Invoke.snapshot.
  destruct (σ !! self) as [o |] eqn:Hself; [| done].
  rewrite (lookup_weaken _ _ _ _ Hself Hsub).
  destruct o as [| | | a]; try done.
  destruct (Invoke.read_dict σ (Some (Invoke.url_parameters a))) as [ps |] eqn:E1;
    [| done].
  rewrite (read_dict_preserved _ _ _ _ Hsub E1). simpl.
  destruct (Invoke.deref Invoke.read_response σ (Invoke.response a)) eqn:E2;
    [| done].
  rewrite (deref_preserved _ _ σ' _ _ (fun l v => read_response_preserved σ σ' l v Hsub) E2).
  simpl.
  destruct (Invoke.deref Invoke.read_dict σ (Invoke.extra_environ a)) eqn:E3;
    [| done].
  rewrite (deref_preserved _ _ σ' _ _ (fun l v => read_dict_preserved σ σ' l v Hsub) E3).
  simpl.
  destruct (Invoke.deref Invoke.read_dict σ (Invoke.form a)) eqn:E4; [| done].
  rewrite (deref_preserved _ _ σ' _ _ (fun l v => read_dict_preserved σ σ' l v Hsub) E4).
  simpl.
  destruct (Invoke.deref Invoke.read_list σ (Invoke.headers a)) eqn:E5; [| done].
  rewrite (deref_preserved _ _ σ' _ _ (fun l v => read_list_preserved σ σ' l v Hsub) E5).
  simpl.
  destruct (Invoke.deref Invoke.read_dict σ (Invoke.query a)) eqn:E6; [| done].
  rewrite (deref_preserved _ _ σ' _ _ (fun l v => read_dict_preserved σ σ' l v Hsub) E6).
  done.
Qed.

(** The store after [invoke] holds every object of the store before it. *)
Lemma invoke_preserves_store `{Externals} (application : Type)
    (urlencode : pydict -> string)
    (gen_request :
       application -> string -> string -> option pydict ->
       list (string * string) -> option pydict ->
       result (string * list (string * string) * bytes))
    (σ : Invoke.store) (self : Invoke.loc) (app : application) :
  σ ⊆ snd (Invoke.invoke application urlencode gen_request σ self app).
Proof.
  unfold Invoke.invoke.
  destruct (σ !! self) as [[| | | a] |]; try reflexivity.
  set (first := match Invoke.headers a, Invoke.read_list σ (Invoke.headers a) with
                | Some l, Some (_ :: _) => (l, σ)
                | _, _ => Invoke.alloc σ (Invoke.OList [])
                end).
  assert (Hfirst : σ ⊆ snd first).
  { unfold first. destruct (Invoke.headers a) as [l |];
      [destruct (Invoke.read_list σ (Some l)) as [[| h hs] |] |];
      simpl; try reflexivity; apply alloc_preserves. }
  destruct first as [headers0 σ0]. simpl in Hfirst.
  destruct (Invoke.content_type a) as [[| c ct] |]; simpl; try exact Hfirst.
  etransitivity; [exact Hfirst |].
  exact (alloc_append_preserves σ0 _ _).
Qed.

(** C9: [invoke] leaves the Call as it was.  Every object of the store is
    after the invocation what it was before, the Call and what its
    attributes refer to among them, since the list the Content-Type header
    is appended to is a new one and the URL with the query a new string; so
    the Call read through the store, attribute by attribute, is the same
    Call afterwards, whatever the transport answers, and the Response that
    [invoke] returns is not stored in it. *)
Theorem invoke_leaves_call_unchanged `{Externals} (application : Type)
    (urlencode : pydict -> string)
    (gen_request :
       application -> string -> string -> option pydict ->
       list (string * string) -> option pydict ->
       result (string * list (string * string) * bytes))
    (σ : Invoke.store) (self : Invoke.loc) (app : application) (c : Call.t) :
  Invoke.snapshot σ self = Some c ->
  σ ⊆ snd (Invoke.invoke application urlencode gen_request σ self app)
  /\ Invoke.snapshot
       (snd (Invoke.invoke application urlencode gen_request σ self app)) self
     = Some c.
Proof.
  intros Hc.
  pose proof (invoke_preserves_store application urlencode gen_request σ self app)
    as Hsub.
  split; [exact Hsub |]. exact (snapshot_preserved _ _ _ _ Hsub Hc).
Qed.

Lemma invoke_leaves_call_unchanged_witness :
  Invoke.snapshot sample_store 1%positive = Some sample_store_call
  /\ Invoke.snapshot
       (snd (Invoke.invoke (H := spec_externals) unit (fun _ => EmptyString)
               ok_transport sample_store 1%positive tt)) 1%positive
     = Some sample_store_call.
Proof.
  split; [vm_compute; reflexivity |].
  apply (invoke_leaves_call_unchanged (H := spec_externals) unit
           (fun _ => EmptyString) ok_transport sample_store 1%positive tt
           sample_store_call).
  vm_compute. reflexivity.
Defined.

(** On the sample store the header list of the Call, at 3, is what it was,
    and the headers of the request are a new list, at 4. *)
Lemma invoke_sample_store :
  let σ' := snd (Invoke.invoke (H := spec_externals) unit
                   (fun _ => EmptyString) ok_transport sample_store
                   1%positive tt) in
  σ' !! 3%positive = Some (Invoke.OList [("Content-Type", "a/b")])
  /\ σ' !! 4%positive = Some (Invoke.OList [("Content-Type", "text/plain")]).
Proof. split; vm_compute; reflexivity. Qed.

(** * Further properties *)

(** ** Text *)

Lemma str_app_cons (x : ascii) (a b : string) :
  String x a +:+ b = String x (a +:+ b).
Proof. reflexivity. Qed.

Lemma str_app_assoc (a b c : string) : (a +:+ b) +:+ c = a +:+ b +:+ c.
Proof.
  induction a as [| x a IH]; [reflexivity |].
  rewrite !str_app_cons. by f_equal.
Qed.

Lemma str_app_nil_r (a : string) : a +:+ EmptyString = a.
Proof.
  induction a as [| x a IH]; [reflexivity |].
  rewrite str_app_cons. by f_equal.
Qed.

Lemma str_length_app (a b : string) :
  String.length (a +:+ b) = (String.length a + String.length b)%nat.
Proof.
  induction a as [| x a IH]; [reflexivity |].
  rewrite str_app_cons. simpl. by f_equal.
Qed.

Lemma all_chars_app (p : ascii -> bool) (a b : string) :
  all_chars p (a +:+ b) = (all_chars p a && all_chars p b)%bool.
Proof.
  induction a as [| x a IH]; [reflexivity |].
  rewrite str_app_cons. simpl. rewrite IH. by rewrite andb_assoc.
Qed.

Lemma all_chars_impl (p q : ascii -> bool) (s : string) :
  (forall c, p c = true -> q c = true) ->
  all_chars p s = true -> all_chars q s = true.
Proof.
  intros Hpq. induction s as [| c s IH]; simpl; [reflexivity |].
  intros Hs. apply andb_true_iff in Hs as [Hc Hs].
  by rewrite (Hpq c Hc), (IH Hs).
Qed.

Lemma span_app (p : ascii -> bool) (a r : string) :
  all_chars p a = true -> starts_with p r = false ->
  span p (a +:+ r) = (a, r).
Proof.
  intros Ha Hr. induction a as [| c a IH].
  - change (EmptyString +:+ r) with r.
    destruct r as [| c r]; [reflexivity |]. simpl in *. by rewrite Hr.
  - rewrite str_app_cons. simpl in *. apply andb_true_iff in Ha as [Hc Ha].
    by rewrite Hc, (IH Ha).
Qed.

Lemma span_split (p : ascii -> bool) (s a b : string) :
  span p s = (a, b) ->
  s = a +:+ b /\ all_chars p a = true /\ starts_with p b = false.
Proof.
  revert a b. induction s as [| c s IH]; intros a b; simpl.
  - intros [= <- <-]. auto.
  - destruct (p c) eqn:Hc.
    + destruct (span p s) as [a' b'] eqn:Hs. intros [= <- <-].
      destruct (IH a' b' eq_refl) as (-> & Ha & Hb).
      rewrite str_app_cons. simpl. by rewrite Hc, Ha.
    + intros [= <- <-]. simpl. auto.
Qed.

Lemma is_word_not_colon (c : ascii) : is_word c = true -> not_colon c = true.
Proof.
  destruct c as [[] [] [] [] [] [] [] []]; vm_compute; congruence.
Qed.

Lemma is_value_char_not_colon (c : ascii) :
  is_value_char c = true -> not_colon c = true.
Proof.
  destruct c as [[] [] [] [] [] [] [] []]; vm_compute; congruence.
Qed.

Lemma is_value_char_not_space (c : ascii) :
  is_value_char c = true -> is_space c = false.
Proof.
  destruct c as [[] [] [] [] [] [] [] []]; vm_compute; congruence.
Qed.

Lemma is_word_value_char (c : ascii) :
  is_word c = true -> is_value_char c = true.
Proof.
  unfold is_value_char. intros ->. reflexivity.
Qed.

(** ** The URL pattern: what it takes to match *)

Lemma match_colon_value_colon (s : string) (x : string * nat) :
  match_colon_value s = Some x -> starts_with not_colon s = false /\ s ≠ EmptyString.
Proof.
  unfold match_colon_value. destruct s as [| c s]; [discriminate |].
  destruct (Ascii.eqb_spec c ":") as [-> | Hc]; [intros _; split; [reflexivity | discriminate] |].
  destruct c as [[] [] [] [] [] [] [] []]; try discriminate. congruence.
Qed.

Lemma match_colon_value_no_colon (s : string) :
  starts_with not_colon s = true \/ s = EmptyString -> match_colon_value s = None.
Proof.
  intros Hs. destruct (match_colon_value s) as [x |] eqn:Hm; [| reflexivity].
  apply match_colon_value_colon in Hm as [Hc Hne].
  destruct Hs as [Hs | Hs]; congruence.
Qed.

(** A text without a colon has no match at its head. *)
Lemma match_url_parameter_no_colon (s : string) :
  all_chars not_colon s = true -> match_url_parameter s = None.
Proof.
  intros Hs. unfold match_url_parameter.
  destruct s as [| c s]; [reflexivity |].
  destruct (Ascii.eqb_spec c "/") as [-> | Hc].
  - destruct (span is_word s) as [k r] eqn:Hspan.
    destruct k as [| k0 k]; [reflexivity |].
    apply span_split in Hspan as (-> & _ & _).
    simpl in Hs. rewrite all_chars_app in Hs.
    apply andb_true_iff in Hs as [_ Hr].
    apply andb_true_iff in Hr as [_ Hr].
    rewrite match_colon_value_no_colon; [reflexivity |].
    destruct r as [| r0 r]; [by right | left].
    simpl in Hr. by apply andb_true_iff in Hr as [Hr _].
  - destruct c as [[] [] [] [] [] [] [] []]; try reflexivity. congruence.
Qed.

Lemma all_chars_tail (p : ascii -> bool) (c : ascii) (s : string) :
  all_chars p (String c s) = true -> all_chars p s = true.
Proof. simpl. intros Hs. by apply andb_true_iff in Hs as [_ Hs]. Qed.

Lemma search_no_colon (s : string) :
  all_chars not_colon s = true -> search_url_parameter s = false.
Proof.
  induction s as [| c s IH]; intros Hs.
  - reflexivity.
  - cbn [search_url_parameter]. rewrite (match_url_parameter_no_colon _ Hs).
    apply IH. by apply all_chars_tail in Hs.
Qed.

(** [search] finds a match exactly when [findall] lists one. *)
Lemma search_false_findall (s : string) :
  search_url_parameter s = false <-> findall_url_parameter s = [].
Proof.
  unfold findall_url_parameter. induction s as [| c s IH].
  - simpl. tauto.
  - cbn [search_url_parameter findall_from].
    destruct (match_url_parameter (String c s)) as [[[k v] n] |];
      [split; discriminate | exact IH].
Qed.

Lemma extract_url_parameters_fold (url : string) :
  extract_url_parameters url
  = fold_left extract_step (findall_url_parameter url) (url, ∅).
Proof.
  unfold extract_url_parameters.
  destruct (search_url_parameter url) eqn:Hsearch; [reflexivity |].
  apply search_false_findall in Hsearch. by rewrite Hsearch.
Qed.

(** ** extract_url_parameters: the mapping *)

Lemma fold_insert_dom (kvs : list (string * string)) (acc : pydict) :
  dom (fold_left (fun ps kv => <[fst kv := SStr (snd kv)]> ps) kvs acc)
  = dom acc ∪ list_to_set (map fst kvs).
Proof.
  revert acc. induction kvs as [| [k v] kvs IH]; intros acc; simpl.
  - by rewrite (right_id_L ∅ (∪)).
  - rewrite IH, dom_insert_L.
    by rewrite (comm_L (∪) {[k]} (dom acc)), (assoc_L (∪)).
Qed.

Lemma fold_insert_other (kvs : list (string * string)) (acc : pydict) (k : string) :
  k ∉ map fst kvs ->
  fold_left (fun ps kv => <[fst kv := SStr (snd kv)]> ps) kvs acc !! k = acc !! k.
Proof.
  revert acc. induction kvs as [| [k' v'] kvs IH]; intros acc Hk; simpl.
  - reflexivity.
  - simpl in Hk. apply not_elem_of_cons in Hk as [Hne Hk].
    rewrite (IH _ Hk). by rewrite lookup_insert_ne.
Qed.

Lemma fold_insert_last (before after : list (string * string)) (acc : pydict)
    (k v : string) :
  k ∉ map fst after ->
  fold_left (fun ps kv => <[fst kv := SStr (snd kv)]> ps)
    (before ++ (k, v) :: after) acc !! k = Some (SStr v).
Proof.
  intros Hk. rewrite fold_left_app. simpl.
  rewrite (fold_insert_other after _ k Hk). apply lookup_insert_eq.
Qed.

(** The parameters that come back are those of the matches of the pattern
    in the URL given: the names are the keys matched, each with the value of
    its last match; the rewriting of the URL between two matches has no part
    in them.  Without a match the URL comes back as it is. *)
Theorem extracted_parameters_are_the_matches (url : string) :
  dom (snd (extract_url_parameters url))
  = list_to_set (map fst (findall_url_parameter url))
  /\ (forall before k v after,
        findall_url_parameter url = (before ++ (k, v) :: after)%list ->
        k ∉ map fst after ->
        snd (extract_url_parameters url) !! k = Some (SStr v))
  /\ (findall_url_parameter url = [] ->
      extract_url_parameters url = (url, ∅)).
Proof.
  rewrite extract_url_parameters_fold, extract_fold_parameters.
  split; [| split].
  - rewrite fold_insert_dom, dom_empty_L. by rewrite (left_id_L ∅ (∪)).
  - intros before k v after -> Hk. by apply fold_insert_last.
  - intros Hnone. by rewrite Hnone.
Qed.

Lemma extracted_parameters_are_the_matches_witness :
  snd (extract_url_parameters "/a:1/b:2/a:3") !! "a" = Some (SStr "3")
  /\ extract_url_parameters "/users/:id" = ("/users/:id", ∅).
Proof.
  destruct (extracted_parameters_are_the_matches "/a:1/b:2/a:3")
    as (_ & Hlast & _).
  destruct (extracted_parameters_are_the_matches "/users/:id")
    as (_ & _ & Hnone).
  split.
  - apply (Hlast [("a", "1"); ("b", "2")] "a" "3" []).
    + vm_compute. reflexivity.
    + simpl. apply not_elem_of_nil.
  - apply Hnone. vm_compute. reflexivity.
Defined.

(** ** extract_url_parameters: a URL with one parameter *)

Lemma match_url_parameter_head (c : ascii) (r : string) :
  match_url_parameter (String c r)
  = if Ascii.eqb c "/" then
      let '(k, r') := span is_word r in
      match k with
      | EmptyString => None
      | _ =>
          match match_colon_value r' with
          | Some (v, n) => Some (k, v, (1 + String.length k + n)%nat)
          | None => None
          end
      end
    else None.
Proof.
  destruct (Ascii.eqb_spec c "/") as [-> | Hc]; [reflexivity |].
  destruct c as [[] [] [] [] [] [] [] []]; try reflexivity. congruence.
Qed.

Lemma match_colon_value_ok (blank v r : string) :
  optional_blank blank -> v ≠ EmptyString ->
  all_chars is_value_char v = true -> starts_with is_value_char r = false ->
  match_colon_value (String ":" (blank +:+ v +:+ r))
  = Some (v, (1 + String.length blank + String.length v)%nat).
Proof.
  intros Hblank Hne Hv Hr. unfold match_colon_value.
  destruct v as [| v0 v]; [contradiction |].
  destruct Hblank as [-> | (c & Hc & ->)].
  - change (EmptyString +:+ String v0 v +:+ r) with (String v0 (v +:+ r)).
    pose proof Hv as Hv0. simpl in Hv0. apply andb_true_iff in Hv0 as [Hv0 _].
    cbv beta iota. rewrite (is_value_char_not_space v0 Hv0).
    change (String v0 (v +:+ r)) with (String v0 v +:+ r).
    by rewrite (span_app _ _ _ Hv Hr).
  - change (String c EmptyString +:+ String v0 v +:+ r)
      with (String c (String v0 v +:+ r)).
    cbv beta iota. rewrite Hc. by rewrite (span_app _ _ _ Hv Hr).
Qed.

Lemma match_url_parameter_ok (k blank v r : string) :
  k ≠ EmptyString -> all_chars is_word k = true ->
  optional_blank blank -> v ≠ EmptyString ->
  all_chars is_value_char v = true -> starts_with is_value_char r = false ->
  match_url_parameter (String "/" (k +:+ String ":" (blank +:+ v +:+ r)))
  = Some (k, v, (1 + String.length k
                 + (1 + String.length blank + String.length v))%nat).
Proof.
  intros Hk Hword Hblank Hv Hvalue Hr.
  rewrite match_url_parameter_head. simpl (Ascii.eqb _ _).
  rewrite (span_app is_word k (String ":" (blank +:+ v +:+ r)) Hword eq_refl).
  destruct k as [| k0 k]; [contradiction |].
  by rewrite (match_colon_value_ok blank v r Hblank Hv Hvalue Hr).
Qed.

(** The longest run of word characters of a text without a colon, followed
    by a slash, stops before a character that is not a colon. *)
Lemma span_word_before_slash (q t : string) :
  all_chars not_colon q = true ->
  starts_with not_colon (snd (span is_word (q +:+ String "/" t))) = true.
Proof.
  induction q as [| c q IH]; intros Hq.
  - reflexivity.
  - rewrite str_app_cons. simpl in *.
    apply andb_true_iff in Hq as [Hc Hq].
    destruct (is_word c).
    + specialize (IH Hq). by destruct (span is_word (q +:+ String "/" t)).
    + exact Hc.
Qed.

(** No match begins in a text without a colon that a slash follows. *)
Lemma match_url_parameter_before_slash (c : ascii) (q t : string) :
  all_chars not_colon (String c q) = true ->
  match_url_parameter (String c (q +:+ String "/" t)) = None.
Proof.
  intros Hq. rewrite match_url_parameter_head.
  destruct (Ascii.eqb c "/"); [| reflexivity].
  pose proof (span_word_before_slash q t (all_chars_tail _ _ _ Hq)) as Hspan.
  destruct (span is_word (q +:+ String "/" t)) as [k r]. simpl in Hspan.
  destruct k; [reflexivity |].
  by rewrite match_colon_value_no_colon by by left.
Qed.

Lemma findall_before_slash (q t : string) :
  all_chars not_colon q = true ->
  findall_from 0 (q +:+ String "/" t) = findall_from 0 (String "/" t).
Proof.
  induction q as [| c q IH]; intros Hq; [reflexivity |].
  rewrite str_app_cons. cbn [findall_from].
  rewrite (match_url_parameter_before_slash c q t Hq).
  apply IH. by apply all_chars_tail in Hq.
Qed.

Lemma search_before_slash (q t : string) :
  all_chars not_colon q = true ->
  search_url_parameter (q +:+ String "/" t) = search_url_parameter (String "/" t).
Proof.
  induction q as [| c q IH]; intros Hq; [reflexivity |].
  rewrite str_app_cons. cbn [search_url_parameter].
  rewrite (match_url_parameter_before_slash c q t Hq).
  apply IH. by apply all_chars_tail in Hq.
Qed.

(** The characters a match covers are passed over. *)
Lemma findall_skip (a r : string) :
  findall_from (String.length a) (a +:+ r) = findall_from 0 r.
Proof.
  induction a as [| c a IH]; [reflexivity |].
  rewrite str_app_cons. simpl. exact IH.
Qed.

Lemma sub_skip (k a r : string) :
  sub_from k (String.length a) (a +:+ r) = sub_from k 0 r.
Proof.
  induction a as [| c a IH]; [reflexivity |].
  rewrite str_app_cons. simpl. exact IH.
Qed.

Lemma findall_no_colon (r : string) :
  all_chars not_colon r = true -> findall_from 0 r = [].
Proof.
  intros Hr. apply (proj1 (search_false_findall r)). by apply search_no_colon.
Qed.

Lemma strip_prefix_app (k r : string) : strip_prefix k (k +:+ r) = Some r.
Proof.
  induction k as [| c k IH]; [by destruct r |].
  rewrite str_app_cons. simpl. by rewrite Ascii.eqb_refl.
Qed.

Lemma strip_prefix_split (k s r : string) :
  strip_prefix k s = Some r -> s = k +:+ r.
Proof.
  revert s. induction k as [| c k IH]; intros s.
  - destruct s; intros [= <-]; reflexivity.
  - destruct s as [| c' s]; [discriminate |]. simpl.
    destruct (Ascii.eqb_spec c c') as [<- | _]; [| discriminate].
    intros Hs. rewrite str_app_cons. by rewrite (IH s Hs).
Qed.

(** The substitution pattern matches at the key followed by a colon only. *)
Lemma match_key_value_split (k s : string) (n : nat) :
  match_key_value k s = Some n -> exists rest, s = k +:+ String ":" rest.
Proof.
  unfold match_key_value.
  destruct (strip_prefix k s) as [r |] eqn:Hstrip; [| discriminate].
  apply strip_prefix_split in Hstrip as ->.
  destruct (match_colon_value r) as [x |] eqn:Hm; [| discriminate].
  intros _. apply match_colon_value_colon in Hm as [Hc Hne].
  destruct r as [| c r]; [contradiction |].
  simpl in Hc. unfold not_colon in Hc. apply negb_false_iff in Hc.
  apply Ascii.eqb_eq in Hc as ->. by exists r.
Qed.

(** Where the first colon stands decides what is before it. *)
Lemma first_colon_unique (a b x y : string) :
  all_chars not_colon a = true -> all_chars not_colon b = true ->
  a +:+ String ":" x = b +:+ String ":" y -> a = b.
Proof.
  revert b. induction a as [| c a IH]; intros b Ha Hb Heq.
  - destruct b as [| c' b]; [reflexivity |].
    rewrite str_app_cons in Heq. injection Heq as <- _.
    simpl in Hb. discriminate.
  - destruct b as [| c' b].
    + rewrite str_app_cons in Heq. injection Heq as -> _.
      simpl in Ha. discriminate.
    + rewrite !str_app_cons in Heq. injection Heq as <- Heq.
      f_equal. apply (IH b); [by apply all_chars_tail in Ha
                             | by apply all_chars_tail in Hb | exact Heq].
Qed.

Lemma match_key_value_before (k : string) (c : ascii) (q t : string) :
  all_chars not_colon (String c q) = true -> all_chars not_colon k = true ->
  match_key_value k (String c q +:+ k +:+ String ":" t) = None.
Proof.
  intros Hq Hk.
  destruct (match_key_value k (String c q +:+ k +:+ String ":" t)) as [n |]
    eqn:Hm; [| reflexivity].
  apply match_key_value_split in Hm as (rest & Heq).
  rewrite <- str_app_assoc in Heq.
  apply first_colon_unique in Heq; [| | exact Hk].
  - apply (f_equal String.length) in Heq.
    rewrite str_length_app in Heq. simpl in Heq. lia.
  - by rewrite all_chars_app, Hq, Hk.
Qed.

Lemma sub_before_key (k q t : string) :
  all_chars not_colon q = true -> all_chars not_colon k = true ->
  sub_from k 0 (q +:+ k +:+ String ":" t)
  = q +:+ sub_from k 0 (k +:+ String ":" t).
Proof.
  intros Hq Hk. induction q as [| c q IH]; [reflexivity |].
  pose proof (match_key_value_before k c q t Hq Hk) as Hnone.
  rewrite str_app_cons in *. cbn [sub_from]. rewrite Hnone.
  rewrite str_app_cons. f_equal. apply IH. by apply all_chars_tail in Hq.
Qed.

Lemma match_key_value_no_colon (k s : string) :
  all_chars not_colon s = true -> match_key_value k s = None.
Proof.
  intros Hs. destruct (match_key_value k s) as [n |] eqn:Hm; [| reflexivity].
  apply match_key_value_split in Hm as (rest & ->).
  rewrite all_chars_app in Hs. apply andb_true_iff in Hs as [_ Hs].
  simpl in Hs. discriminate.
Qed.

Lemma sub_no_colon (k r : string) :
  all_chars not_colon r = true -> sub_from k 0 r = r.
Proof.
  induction r as [| c r IH]; intros Hr; [reflexivity |].
  cbn [sub_from]. rewrite (match_key_value_no_colon k _ Hr).
  f_equal. apply IH. by apply all_chars_tail in Hr.
Qed.

Lemma match_key_value_ok (k blank v r : string) :
  optional_blank blank -> v ≠ EmptyString ->
  all_chars is_value_char v = true -> starts_with is_value_char r = false ->
  match_key_value k (k +:+ String ":" (blank +:+ v +:+ r))
  = Some (String.length k + (1 + String.length blank + String.length v))%nat.
Proof.
  intros Hblank Hv Hvalue Hr. unfold match_key_value.
  rewrite strip_prefix_app.
  by rewrite (match_colon_value_ok blank v r Hblank Hv Hvalue Hr).
Qed.

Lemma findall_single_parameter (p k blank v r : string) :
  all_chars not_colon p = true ->
  k ≠ EmptyString -> all_chars is_word k = true ->
  optional_blank blank -> v ≠ EmptyString ->
  all_chars is_value_char v = true ->
  all_chars not_colon r = true -> starts_with is_value_char r = false ->
  findall_url_parameter (p +:+ String "/" (k +:+ String ":" (blank +:+ v +:+ r)))
  = [(k, v)].
Proof.
  intros Hp Hk Hword Hblank Hv Hvalue Hr Hstop. unfold findall_url_parameter.
  rewrite (findall_before_slash p _ Hp). cbn [findall_from].
  rewrite (match_url_parameter_ok k blank v r Hk Hword Hblank Hv Hvalue Hstop).
  f_equal.
  replace (k +:+ String ":" (blank +:+ v +:+ r))
    with ((k +:+ String ":" (blank +:+ v)) +:+ r)
    by (rewrite str_app_assoc, str_app_cons; by rewrite str_app_assoc).
  replace (Nat.pred (1 + String.length k
                     + (1 + String.length blank + String.length v)))
    with (String.length (k +:+ String ":" (blank +:+ v)))
    by (rewrite str_length_app; simpl; rewrite str_length_app; lia).
  rewrite findall_skip. by apply findall_no_colon.
Qed.

Lemma sub_single_parameter (p k blank v r : string) :
  all_chars not_colon p = true ->
  k ≠ EmptyString -> all_chars is_word k = true ->
  optional_blank blank -> v ≠ EmptyString ->
  all_chars is_value_char v = true ->
  all_chars not_colon r = true -> starts_with is_value_char r = false ->
  sub_key_value k (p +:+ String "/" (k +:+ String ":" (blank +:+ v +:+ r)))
  = p +:+ String "/" (String ":" (k +:+ r)).
Proof.
  intros Hp Hk Hword Hblank Hv Hvalue Hr Hstop. unfold sub_key_value.
  assert (Hkey : all_chars not_colon k = true)
    by (apply (all_chars_impl is_word); [apply is_word_not_colon | exact Hword]).
  replace (p +:+ String "/" (k +:+ String ":" (blank +:+ v +:+ r)))
    with ((p +:+ String "/" EmptyString) +:+ k +:+ String ":" (blank +:+ v +:+ r))
    by by rewrite str_app_assoc.
  rewrite sub_before_key;
    [| by rewrite all_chars_app, Hp | exact Hkey].
  rewrite str_app_assoc. f_equal. rewrite str_app_cons.
  change (EmptyString +:+ ?x) with x. f_equal.
  destruct k as [| k0 k]; [contradiction |].
  rewrite str_app_cons. cbn [sub_from].
  change (String k0 (k +:+ String ":" (blank +:+ v +:+ r)))
    with (String k0 k +:+ String ":" (blank +:+ v +:+ r)).
  rewrite (match_key_value_ok (String k0 k) blank v r Hblank Hv Hvalue Hstop).
  replace (k +:+ String ":" (blank +:+ v +:+ r))
    with ((k +:+ String ":" (blank +:+ v)) +:+ r)
    by (rewrite str_app_assoc, str_app_cons; by rewrite str_app_assoc).
  replace (Nat.pred (String.length (String k0 k)
                     + (1 + String.length blank + String.length v)))
    with (String.length (k +:+ String ":" (blank +:+ v)))
    by (rewrite str_length_app; simpl; rewrite str_length_app; lia).
  rewrite sub_skip. rewrite (sub_no_colon _ r Hr). reflexivity.
Qed.

(** A URL that holds one parameter, [/key:value] or [/key: value], between
    texts without a colon, comes back with [/:key] in its place and with
    that one parameter; and what comes back holds no parameter any more. *)
Theorem single_parameter_is_extracted (p k blank v r : string) :
  all_chars not_colon p = true ->
  k ≠ EmptyString -> all_chars is_word k = true ->
  optional_blank blank -> v ≠ EmptyString ->
  all_chars is_value_char v = true ->
  all_chars not_colon r = true -> starts_with is_value_char r = false ->
  extract_url_parameters
    (p +:+ String "/" (k +:+ String ":" (blank +:+ v +:+ r)))
  = (p +:+ String "/" (String ":" (k +:+ r)), {[ k := SStr v ]})
  /\ search_url_parameter (p +:+ String "/" (String ":" (k +:+ r))) = false.
Proof.
  intros Hp Hk Hword Hblank Hv Hvalue Hr Hstop. split.
  - rewrite extract_url_parameters_fold.
    rewrite (findall_single_parameter p k blank v r) by assumption.
    simpl. f_equal.
    by apply sub_single_parameter.
  - rewrite (search_before_slash p _ Hp). cbn [search_url_parameter].
    rewrite match_url_parameter_head. simpl.
    apply search_no_colon. rewrite all_chars_app, Hr.
    rewrite (all_chars_impl is_word not_colon k is_word_not_colon Hword).
    reflexivity.
Qed.

Lemma single_parameter_is_extracted_witness :
  extract_url_parameters
    ("/users" +:+ String "/" ("user_id" +:+ String ":" (" " +:+ "42" +:+ "/posts")))
  = ("/users" +:+ String "/" (String ":" ("user_id" +:+ "/posts")),
     {[ "user_id" := SStr "42" ]})
  /\ search_url_parameter
       ("/users" +:+ String "/" (String ":" ("user_id" +:+ "/posts"))) = false.
Proof.
  apply (single_parameter_is_extracted "/users" "user_id" " " "42" "/posts");
    try reflexivity; try discriminate.
  right. exists " "%char. split; reflexivity.
Defined.

(** ** Call: explicit URL parameters *)

(** The Call is built whenever its response is accepted; its URL is the
    rewritten one, and each of its URL parameters is the one given
    explicitly under that name, or else the one extracted from the URL. *)
Theorem explicit_url_parameters_win `{Externals} (title url verb : string)
    (url_parameters form : option pydict) (content_type : option string)
    (headers : option (list header_item)) (as_ : option string)
    (query : option pydict) (description : option string)
    (extra_environ : option pydict) (response r : option Call.response_value) :
  Call.set_response response = Return r ->
  exists c,
    Call.init title url verb url_parameters form content_type headers as_
      query description extra_environ response = Return c
    /\ Call.url c = fst (extract_url_parameters url)
    /\ forall k,
         Call.url_parameters c !! k
         = match default ∅ url_parameters !! k with
           | Some v => Some v
           | None => snd (extract_url_parameters url) !! k
           end.
Proof.
  intros Hr.
  destruct (call_init_url_parameters title url verb url_parameters form
              content_type headers as_ query description extra_environ
              response r Hr) as (c & Hc & Hurl & Hps & _).
  exists c. split; [exact Hc |]. split; [exact Hurl |].
  intros k. rewrite Hps.
  destruct (default ∅ url_parameters !! k) as [v |] eqn:Hk.
  - by apply update_lookup_given.
  - by apply update_lookup_kept.
Qed.

Lemma explicit_url_parameters_win_witness :
  exists c,
    Call.init (H := spec_externals) "t" "/users/id: 1" "GET"
      (Some {[ "id" := SInt 7 ]}) None None None None None None None None
    = Return c
    /\ Call.url c = fst (extract_url_parameters "/users/id: 1")
    /\ forall k,
         Call.url_parameters c !! k
         = match default ∅ (Some ({[ "id" := SInt 7 ]} : pydict)) !! k with
           | Some v => Some v
           | None => snd (extract_url_parameters "/users/id: 1") !! k
           end.
Proof.
  apply (explicit_url_parameters_win (H := spec_externals) "t" "/users/id: 1"
           "GET" (Some {[ "id" := SInt 7 ]}) None None None None None None
           None None None).
  reflexivity.
Defined.

(** ** Response: which header gives the content type *)

Lemma scan_content_type_first (before after : list (string * string))
    (v : string) :
  Forall (fun h => fst h ≠ "Content-Type") before ->
  Response.scan_content_type (before ++ ("Content-Type", v) :: after)%list
  = match match_content_type v with
    | Some groups => (Some (fst groups), snd groups)
    | None => (None, None)
    end.
Proof.
  induction 1 as [| [k w] before Hk _ IH]; simpl; [reflexivity |].
  destruct (String.eqb_spec k "Content-Type") as [-> | _]; [| exact IH].
  simpl in Hk. contradiction.
Qed.

(** The first header named Content-Type decides alone: the Response has the
    two groups of the pattern on its value, or neither attribute when the
    value does not match, whatever headers come after it. *)
Theorem first_content_type_header_decides `{Externals} (status : string)
    (headers : option (list header_item)) (body : option Response.body_arg)
    (code : Z) (text : option string)
    (before after : list (string * string)) (v : string) :
  Response.parse_status status = Return (code, text) ->
  normalize_headers headers
  = Some (before ++ ("Content-Type", v) :: after)%list ->
  Forall (fun h => fst h ≠ "Content-Type") before ->
  exists r,
    Response.init status headers body = Return r
    /\ Response.content_type r = fst <$> match_content_type v
    /\ Response.encoding r = match_content_type v ≫= snd.
Proof.
  intros Hstatus Hheaders Hbefore. unfold Response.init.
  rewrite Hstatus, Hheaders. simpl.
  rewrite (scan_content_type_first before after v Hbefore).
  destruct (match_content_type v) as [[ct enc] |]; simpl;
    eexists; (split; [reflexivity |]); split; reflexivity.
Qed.

Lemma first_content_type_header_decides_witness :
  exists r,
    Response.init (H := spec_externals) "200 OK"
      (Some [HPair "X-Id" "7"; HPair "Content-Type" "text";
             HPair "Content-Type" "text/plain"]) None = Return r
    /\ Response.content_type r = fst <$> match_content_type "text"
    /\ Response.encoding r = match_content_type "text" ≫= snd.
Proof.
  apply (first_content_type_header_decides (H := spec_externals) "200 OK" _ None
           200 (Some "OK") [("X-Id", "7")] [("Content-Type", "text/plain")]
           "text").
  - reflexivity.
  - reflexivity.
  - constructor; [discriminate | constructor].
Defined.

(** ** CONTENT_TYPE_PATTERN *)

Lemma match_charset_ok (blank enc : string) :
  optional_blank blank -> enc ≠ EmptyString -> all_chars is_dot enc = true ->
  match_charset (String ";" (blank +:+ "charset=" +:+ enc)) = Some enc.
Proof.
  intros Hblank Hne Henc. unfold match_charset.
  assert (Hspan : span is_dot enc = (enc, EmptyString)).
  { rewrite <- (str_app_nil_r enc) at 1. by apply span_app. }
  destruct Hblank as [-> | (c & Hc & ->)].
  - change (EmptyString +:+ "charset=" +:+ enc)
      with (String "c" ("harset=" +:+ enc)).
    cbv beta iota. change (is_space "c") with false. cbv beta iota.
    change (String "c" ("harset=" +:+ enc)) with ("charset=" +:+ enc).
    rewrite strip_prefix_app, Hspan. by destruct enc.
  - change (String c EmptyString +:+ "charset=" +:+ enc)
      with (String c ("charset=" +:+ enc)).
    cbv beta iota. rewrite Hc.
    rewrite strip_prefix_app, Hspan. by destruct enc.
Qed.

(** A value made of a type, a slash and a subtype, both of word characters,
    matches with that content type and no encoding; followed by a semicolon,
    at most one blank, [charset=] and a text without a line feed, it matches
    with that text as the encoding. *)
Theorem content_type_pattern_groups (major minor blank enc : string) :
  major ≠ EmptyString -> all_chars is_word major = true ->
  minor ≠ EmptyString -> all_chars is_word minor = true ->
  optional_blank blank -> enc ≠ EmptyString -> all_chars is_dot enc = true ->
  match_content_type (major +:+ String "/" minor)
  = Some (major +:+ "/" +:+ minor, None)
  /\ match_content_type
       (major +:+ String "/" (minor +:+ String ";" (blank +:+ "charset=" +:+ enc)))
     = Some (major +:+ "/" +:+ minor, Some enc).
Proof.
  intros Hmajor Hwmajor Hminor Hwminor Hblank Henc Hdot.
  unfold match_content_type. split.
  - rewrite (span_app is_word major (String "/" minor) Hwmajor eq_refl).
    destruct major as [| m0 major]; [contradiction |].
    rewrite <- (str_app_nil_r minor) at 1.
    rewrite (span_app is_word minor EmptyString Hwminor eq_refl).
    destruct minor as [| n0 minor]; [contradiction |]. reflexivity.
  - rewrite (span_app is_word major (String "/" _) Hwmajor eq_refl).
    destruct major as [| m0 major]; [contradiction |].
    rewrite (span_app is_word minor (String ";" _) Hwminor eq_refl).
    destruct minor as [| n0 minor]; [contradiction |].
    by rewrite (match_charset_ok blank enc Hblank Henc Hdot).
Qed.

Lemma content_type_pattern_groups_witness :
  match_content_type ("application" +:+ String "/" "json")
  = Some ("application" +:+ "/" +:+ "json", None)
  /\ match_content_type
       ("application" +:+ String "/"
          ("json" +:+ String ";" (" " +:+ "charset=" +:+ "utf-8")))
     = Some ("application" +:+ "/" +:+ "json", Some "utf-8").
Proof.
  apply (content_type_pattern_groups "application" "json" " " "utf-8");
    try reflexivity; try discriminate.
  right. exists " "%char. split; reflexivity.
Defined.

(** ** Response: text *)

(** The text of a Response is what decoding gives on the body it was built
    with, encoded first when that body was text; a Response built without a
    body has no text: reading it raises AttributeError. *)
Theorem text_of_constructed_response `{Externals} (status : string)
    (headers : option (list header_item)) (body : option Response.body_arg)
    (r : Response.t) :
  Response.init status headers body = Return r ->
  Response.text r
  = match body with
    | Some (Response.BStr s) => bytes_decode (str_encode s)
    | Some (Response.BBytes b) => bytes_decode b
    | None => Raise AttributeError
    end.
Proof.
  unfold Response.init. intros Hr.
  destruct (Response.parse_status status) as [[code text] |]; simpl in Hr;
    [| discriminate].
  destruct (normalize_headers headers) as [hs |]; [| discriminate].
  destruct (Response.scan_content_type hs) as [ct enc].
  injection Hr as <-. unfold Response.text. simpl.
  by destruct body as [[s | b] |].
Qed.

Lemma text_of_constructed_response_witness :
  Response.text (H := spec_externals) ok_response
  = bytes_decode (Externals := spec_externals)
      (str_encode (Externals := spec_externals) "ok").
Proof.
  apply (text_of_constructed_response (H := spec_externals) "200 OK"
           (Some [HPair "X-Id" "7"]) (Some (Response.BStr "ok")) ok_response).
  reflexivity.
Defined.

(** ** Response: its mapping read back *)

(** A Response with at least one header reads back from its mapping when
    its status line parses, its headers written as lines normalize to
    themselves, and its body, if there is one to decode, is the encoding of
    the text it decodes to. *)
Theorem response_with_headers_reads_back `{Externals} (r : Response.t)
    (d : Response.dict) (p : Z * option string) :
  Response.parse_status (Response.status r) = Return p ->
  Response.headers r ≠ [] ->
  normalize_headers (Some (header_lines (Response.headers r)))
  = Some (Response.headers r) ->
  (forall b text,
     Response.body r = Some b -> bytes_decode b = Return text ->
     str_encode text = b) ->
  Response.to_dict r = Return d ->
  response_reads_back r.
Proof.
  intros Hstatus Hne Hheaders Hcodec Hd.
  pose proof (response_to_dict_inv r d Hd) as (Hds & Hdh & Hdb).
  destruct d as [ds dh db].
  cbn [Response.d_status Response.d_headers Response.d_body] in Hds, Hdh, Hdb.
  subst ds.
  assert (Hdh' : dh = Some (header_lines (Response.headers r)))
    by (rewrite Hdh; destruct (Response.headers r); [contradiction | reflexivity]).
  clear Hdh. subst dh. destruct p as [code text].
  destruct (Response.scan_content_type (Response.headers r)) as [ct enc]
    eqn:Hscan.
  eexists. eexists. split; [exact Hd |].
  unfold Response.of_dict.
  cbn [Response.d_status Response.d_headers Response.d_body].
  unfold Response.init. rewrite Hstatus, Hheaders. simpl. rewrite Hscan.
  split; [reflexivity |].
  unfold Response.to_dict.
  cbn [Response.status Response.headers Response.body].
  destruct (Response.headers r) as [| h hs]; [contradiction |].
  destruct Hdb as [[_ ->] | (b & text' & Hb & Hbne & Htext & ->)].
  - reflexivity.
  - rewrite (Hcodec b text' Hb Htext).
    destruct b as [| b0 b]; [contradiction |]. by rewrite Htext.
Qed.

Lemma response_with_headers_reads_back_witness :
  response_reads_back (H := spec_externals) ok_response.
Proof.
  apply (response_with_headers_reads_back (H := spec_externals) ok_response
           ok_response_dict (200, Some "OK")).
  - reflexivity.
  - discriminate.
  - reflexivity.
  - intros b text Hb Htext. injection Hb as <-.
    vm_compute in Htext. injection Htext as <-. reflexivity.
  - reflexivity.
Defined.

(** ** Call: its mapping read back *)

Lemma call_init_return `{Externals} (title url verb : string)
    (url_parameters form : option pydict) (content_type : option string)
    (headers : option (list header_item)) (as_ : option string)
    (query : option pydict) (description : option string)
    (extra_environ : option pydict) (response r : option Call.response_value) :
  Call.set_response response = Return r ->
  Call.init title url verb url_parameters form content_type headers as_
    query description extra_environ response
  = Return {| Call.title := title; Call.response := r;
              Call.description := description;
              Call.extra_environ := extra_environ;
              Call.url := fst (extract_url_parameters url);
              Call.url_parameters :=
                update (snd (extract_url_parameters url))
                  (default ∅ url_parameters);
              Call.verb := verb; Call.form := form;
              Call.content_type := content_type;
              Call.headers := normalize_headers headers; Call.as_ := as_;
              Call.query := normalize_query_string query |}.
Proof.
  intros Hr. unfold Call.init. rewrite Hr. simpl.
  destruct (extract_url_parameters url) as [url' extracted]. simpl.
  do 2 f_equal.
  destruct url_parameters as [given |]; simpl.
  - destruct (decide (given = ∅)) as [-> | _]; [by rewrite update_empty | done].
  - by rewrite update_empty.
Qed.

Lemma call_init_inv `{Externals} (title url verb : string)
    (url_parameters form : option pydict) (content_type : option string)
    (headers : option (list header_item)) (as_ : option string)
    (query : option pydict) (description : option string)
    (extra_environ : option pydict) (response : option Call.response_value)
    (c : Call.t) :
  Call.init title url verb url_parameters form content_type headers as_
    query description extra_environ response = Return c ->
  exists r, Call.set_response response = Return r.
Proof.
  unfold Call.init.
  destruct (Call.set_response response) as [r |]; [by exists r | discriminate].
Qed.

Lemma update_onto_empty (d : pydict) : update ∅ d = d.
Proof. unfold update. apply (right_id_L ∅ (∪)). Qed.

(** What [to_dict] wrote for a response that reads back is accepted by the
    setter, and gives the same mapping again. *)
Lemma set_response_reads_back `{Externals} (v : option Call.response_value)
    (rd : option Response.dict) :
  response_attribute_reads_back v ->
  Call.response_to_dict v = Return rd ->
  exists v',
    Call.set_response (Call.RMapping <$> rd) = Return v'
    /\ Call.response_to_dict v' = Return rd.
Proof.
  intros [-> | (r & -> & d & r' & Hd & Hr' & Hd')] Hrd; simpl in Hrd.
  - injection Hrd as <-. exists None. split; reflexivity.
  - rewrite Hd in Hrd. simpl in Hrd. injection Hrd as <-.
    exists (Some (Call.RObject r')). simpl.
    pose proof (response_to_dict_inv r d Hd) as (Hstatus & _).
    unfold Call.mapping_truthy. rewrite Hstatus, Hr'. simpl.
    split; [reflexivity |]. by rewrite Hd'.
Qed.

Lemma call_reads_back_holds `{Externals} (c : Call.t) (d : Call.dict) :
  search_url_parameter (Call.url c) = false ->
  normalize_headers (option_map header_lines (Call.headers c)) = Call.headers c ->
  normalize_query_string (Call.query c) = Call.query c ->
  response_attribute_reads_back (Call.response c) ->
  Call.to_dict c = Return d ->
  exists c',
    Call.of_dict d = Return c'
    /\ Call.to_dict c' = Return d
    /\ Call.content_type c' = None
    /\ Call.extra_environ c' = None
    /\ Call.title c' = Call.title c
    /\ Call.url c' = Call.url c
    /\ Call.url_parameters c' = Call.url_parameters c
    /\ Call.verb c' = Call.verb c
    /\ Call.form c' = Call.form c
    /\ Call.headers c' = Call.headers c
    /\ Call.as_ c' = Call.as_ c
    /\ Call.query c' = Call.query c
    /\ Call.description c' = Call.description c.
Proof.
  intros Hurl Hheaders Hquery Hresponse Hd.
  destruct (call_to_dict_inv c d Hd) as (rd & Hrd & ->).
  destruct (set_response_reads_back _ rd Hresponse Hrd) as (v' & Hv' & Hrd').
  unfold Call.of_dict. simpl.
  rewrite (call_init_return _ _ _ _ _ _ _ _ _ _ _ _ v' Hv').
  rewrite (extract_url_parameters_none _ Hurl). simpl.
  rewrite update_onto_empty, Hheaders, Hquery.
  eexists. split; [reflexivity |].
  split; [| repeat split].
  unfold Call.to_dict. simpl. rewrite Hrd'. simpl.
  destruct (Call.headers c); reflexivity.
Qed.

(** A Call whose URL holds no parameter any more, whose headers and query
    normalize to themselves and whose response, if any, reads back, is read
    back from its mapping up to [content_type] and [extra_environ], which
    the mapping does not hold: the Call built from the mapping has neither,
    has every other attribute but the response as it was, and gives the same
    mapping. *)
Theorem call_reads_back `{Externals} (c : Call.t) (d : Call.dict) :
  search_url_parameter (Call.url c) = false ->
  normalize_headers (option_map header_lines (Call.headers c)) = Call.headers c ->
  normalize_query_string (Call.query c) = Call.query c ->
  response_attribute_reads_back (Call.response c) ->
  Call.to_dict c = Return d ->
  exists c',
    Call.of_dict d = Return c'
    /\ Call.to_dict c' = Return d
    /\ Call.content_type c' = None
    /\ Call.extra_environ c' = None
    /\ Call.title c' = Call.title c
    /\ Call.url c' = Call.url c
    /\ Call.url_parameters c' = Call.url_parameters c
    /\ Call.verb c' = Call.verb c
    /\ Call.form c' = Call.form c
    /\ Call.headers c' = Call.headers c
    /\ Call.as_ c' = Call.as_ c
    /\ Call.query c' = Call.query c
    /\ Call.description c' = Call.description c.
Proof. intros. eapply call_reads_back_holds; eassumption. Qed.

Lemma ok_response_is_read_back :
  response_reads_back (H := spec_externals) ok_response.
Proof.
  exists ok_response_dict, ok_response.
  split; [reflexivity |]. split; reflexivity.
Qed.

Lemma call_reads_back_witness :
  Call.to_dict (H := spec_externals) full_call = Return full_call_dict
  /\ Call.content_type full_call = Some "application/json"
  /\ Call.extra_environ full_call = Some {[ "k" := SStr "v" ]}
  /\ Call.of_dict (H := spec_externals) full_call_dict
     = Return full_call_read_back
  /\ exists c',
       Call.of_dict (H := spec_externals) full_call_dict = Return c'
       /\ Call.to_dict (H := spec_externals) c' = Return full_call_dict
       /\ Call.content_type c' = None
       /\ Call.extra_environ c' = None
       /\ Call.title c' = Call.title full_call
       /\ Call.url c' = Call.url full_call
       /\ Call.url_parameters c' = Call.url_parameters full_call
       /\ Call.verb c' = Call.verb full_call
       /\ Call.form c' = Call.form full_call
       /\ Call.headers c' = Call.headers full_call
       /\ Call.as_ c' = Call.as_ full_call
       /\ Call.query c' = Call.query full_call
       /\ Call.description c' = Call.description full_call.
Proof.
  split; [vm_compute; reflexivity |].
  split; [reflexivity |]. split; [reflexivity |].
  split; [vm_compute; reflexivity |].
  apply (call_reads_back (H := spec_externals) full_call full_call_dict).
  - reflexivity.
  - reflexivity.
  - reflexivity.
  - right. exists ok_response. split; [reflexivity |].
    exact ok_response_is_read_back.
  - vm_compute. reflexivity.
Defined.

(** ** OverriddenCall: what the constructor builds *)

(** The diff after lines 152-155, when line 155 does not raise. *)
Lemma update_diff_return (given : option pydict) (kw : OverriddenCall.kwargs)
    (diff : OverriddenCall.diff_t) :
  OverriddenCall.update_diff_url_parameters given
    (OverriddenCall.extract_diff_url kw) = Return diff ->
  diff
  = match OverriddenCall.kw_url kw with
    | Some u =>
        {| OverriddenCall.keys :=
             OverriddenCall.set_url kw (fst (extract_url_parameters u));
           OverriddenCall.url_parameters :=
             Some (update (snd (extract_url_parameters u)) (default ∅ given)) |}
    | None =>
        {| OverriddenCall.keys := kw; OverriddenCall.url_parameters := None |}
    end.
Proof.
  unfold OverriddenCall.update_diff_url_parameters,
    OverriddenCall.extract_diff_url.
  destruct (OverriddenCall.kw_url kw) as [u |].
  - destruct (extract_url_parameters u) as [u' extracted]. simpl.
    destruct given as [given |]; simpl.
    + destruct (decide (given = ∅)) as [-> | _]; intros [= <-];
        [by rewrite update_empty | reflexivity].
    + intros [= <-]. by rewrite update_empty.
  - simpl. destruct given as [given |]; simpl.
    + destruct (decide (given = ∅)); [by intros [= <-] | discriminate].
    + by intros [= <-].
Qed.

Lemma update_diff_total (given : option pydict) (kw : OverriddenCall.kwargs) :
  OverriddenCall.kw_url kw ≠ None \/ default ∅ given = ∅ ->
  exists diff,
    OverriddenCall.update_diff_url_parameters given
      (OverriddenCall.extract_diff_url kw) = Return diff.
Proof.
  unfold OverriddenCall.update_diff_url_parameters,
    OverriddenCall.extract_diff_url.
  intros Hok. destruct (OverriddenCall.kw_url kw) as [u |].
  - destruct (extract_url_parameters u) as [u' extracted]. simpl.
    destruct given as [given |]; simpl; [| by eexists].
    destruct (decide (given = ∅)); by eexists.
  - destruct Hok as [Hurl | Hgiven]; [contradiction |].
    destruct given as [given |]; simpl in *; [| by eexists].
    destruct (decide (given = ∅)); [by eexists | contradiction].
Qed.

(** The keywords of the stored diff are those given, the URL apart. *)
Lemma diff_keys_but_url (given : option pydict) (kw : OverriddenCall.kwargs)
    (diff : OverriddenCall.diff_t) :
  OverriddenCall.update_diff_url_parameters given
    (OverriddenCall.extract_diff_url kw) = Return diff ->
  let kw' := OverriddenCall.keys diff in
  OverriddenCall.kw_verb kw' = OverriddenCall.kw_verb kw
  /\ OverriddenCall.kw_form kw' = OverriddenCall.kw_form kw
  /\ OverriddenCall.kw_content_type kw' = OverriddenCall.kw_content_type kw
  /\ OverriddenCall.kw_headers kw' = OverriddenCall.kw_headers kw
  /\ OverriddenCall.kw_as_ kw' = OverriddenCall.kw_as_ kw
  /\ OverriddenCall.kw_query kw' = OverriddenCall.kw_query kw
  /\ OverriddenCall.kw_extra_environ kw' = OverriddenCall.kw_extra_environ kw
  /\ OverriddenCall.kw_url kw'
     = (fun u => fst (extract_url_parameters u)) <$> OverriddenCall.kw_url kw.
Proof.
  intros Hdiff. rewrite (update_diff_return given kw diff Hdiff).
  destruct (OverriddenCall.kw_url kw) as [u |] eqn:Hurl; simpl;
    rewrite ?Hurl; repeat split.
Qed.

Lemma overridden_init_inv `{Externals} (base_call : Call.t) (title : string)
    (description : option string) (response : option Call.response_value)
    (given : option pydict) (kw : OverriddenCall.kwargs)
    (oc : OverriddenCall.t) :
  OverriddenCall.init base_call title description response given kw
  = Return oc ->
  exists diff r rd,
    OverriddenCall.update_diff_url_parameters given
      (OverriddenCall.extract_diff_url kw) = Return diff
    /\ Call.response_to_dict (Call.response base_call) = Return rd
    /\ Call.set_response response = Return r
    /\ OverriddenCall.base_call oc = base_call
    /\ OverriddenCall.diff oc = diff
    /\ OverriddenCall.call oc
       = {| Call.title := title; Call.response := r;
            Call.description := description;
            Call.extra_environ :=
              OverriddenCall.updated None
                (OverriddenCall.kw_extra_environ (OverriddenCall.keys diff));
            Call.url :=
              fst (extract_url_parameters
                     (default (Call.url base_call)
                        (OverriddenCall.kw_url (OverriddenCall.keys diff))));
            Call.url_parameters :=
              update
                (snd (extract_url_parameters
                        (default (Call.url base_call)
                           (OverriddenCall.kw_url (OverriddenCall.keys diff)))))
                (default (Call.url_parameters base_call)
                   (OverriddenCall.url_parameters diff));
            Call.verb :=
              default (Call.verb base_call)
                (OverriddenCall.kw_verb (OverriddenCall.keys diff));
            Call.form :=
              OverriddenCall.updated (Call.form base_call)
                (OverriddenCall.kw_form (OverriddenCall.keys diff));
            Call.content_type :=
              OverriddenCall.updated None
                (OverriddenCall.kw_content_type (OverriddenCall.keys diff));
            Call.headers :=
              normalize_headers
                (OverriddenCall.updated
                   (option_map header_lines (Call.headers base_call))
                   (OverriddenCall.kw_headers (OverriddenCall.keys diff)));
            Call.as_ :=
              OverriddenCall.updated (Call.as_ base_call)
                (OverriddenCall.kw_as_ (OverriddenCall.keys diff));
            Call.query :=
              normalize_query_string
                (OverriddenCall.updated (Call.query base_call)
                   (OverriddenCall.kw_query (OverriddenCall.keys diff))) |}.
Proof.
  unfold OverriddenCall.init. intros Hoc.
  destruct (OverriddenCall.update_diff_url_parameters given
              (OverriddenCall.extract_diff_url kw)) as [diff |] eqn:Hdiff;
    simpl in Hoc; [| discriminate].
  destruct (Call.to_dict base_call) as [data |] eqn:Hdata; simpl in Hoc;
    [| discriminate].
  destruct (call_to_dict_inv base_call data Hdata) as (rd & Hrd & ->).
  simpl in Hoc.
  match type of Hoc with
  | context [Call.init ?a1 ?a2 ?a3 ?a4 ?a5 ?a6 ?a7 ?a8 ?a9 ?a10 ?a11 ?a12] =>
      destruct (Call.init a1 a2 a3 a4 a5 a6 a7 a8 a9 a10 a11 a12) as [c |]
        eqn:Hc; simpl in Hoc; [| discriminate];
      destruct (call_init_inv _ _ _ _ _ _ _ _ _ _ _ _ c Hc) as (r & Hr);
      rewrite (call_init_return _ _ _ _ _ _ _ _ _ _ _ _ r Hr) in Hc
  end.
  injection Hc as <-. injection Hoc as <-.
  exists diff, r, rd. repeat split; try assumption. simpl.
  destruct diff as [kw' ps']. simpl.
  destruct (OverriddenCall.kw_url kw'), (OverriddenCall.kw_verb kw'), ps';
    reflexivity.
Qed.

(** An OverriddenCall takes [verb], [form], [as_], [headers] and [query]
    from its keywords where they are given, a given [None] included, and
    from the mapping of its base Call otherwise; headers and query are
    normalized once more. *)
Theorem overridden_fields_replace_or_inherit `{Externals}
    (base_call : Call.t) (title : string) (description : option string)
    (response : option Call.response_value) (given : option pydict)
    (kw : OverriddenCall.kwargs) (oc : OverriddenCall.t) :
  OverriddenCall.init base_call title description response given kw
  = Return oc ->
  let c := OverriddenCall.call oc in
  Call.verb c = default (Call.verb base_call) (OverriddenCall.kw_verb kw)
  /\ Call.form c
     = OverriddenCall.updated (Call.form base_call) (OverriddenCall.kw_form kw)
  /\ Call.as_ c
     = OverriddenCall.updated (Call.as_ base_call) (OverriddenCall.kw_as_ kw)
  /\ Call.headers c
     = normalize_headers
         (OverriddenCall.updated
            (option_map header_lines (Call.headers base_call))
            (OverriddenCall.kw_headers kw))
  /\ Call.query c
     = normalize_query_string
         (OverriddenCall.updated (Call.query base_call)
            (OverriddenCall.kw_query kw)).
Proof.
  intros Hoc.
  destruct (overridden_init_inv _ _ _ _ _ _ _ Hoc)
    as (diff & r & rd & Hdiff & _ & _ & _ & _ & Hcall).
  destruct (diff_keys_but_url given kw diff Hdiff)
    as (Hverb & Hform & _ & Hheaders & Has & Hquery & _ & _).
  simpl. rewrite Hcall. simpl.
  by rewrite Hverb, Hform, Hheaders, Has, Hquery.
Qed.

Lemma overridden_fields_replace_or_inherit_witness :
  exists oc,
    OverriddenCall.init (H := spec_externals) post_call "replace" None None
      None put_without_form = Return oc
    /\ Call.verb (OverriddenCall.call oc) = "PUT"
    /\ Call.form (OverriddenCall.call oc) = None
    /\ Call.as_ (OverriddenCall.call oc) = Some "admin".
Proof.
  eexists. split; [vm_compute; reflexivity |].
  edestruct (overridden_fields_replace_or_inherit (H := spec_externals)
               post_call "replace" None None None put_without_form)
    as (Hverb & Hform & Has & _); [vm_compute; reflexivity |].
  split; [exact Hverb |]. split; [exact Hform | exact Has].
Defined.

(** An OverriddenCall does not take [content_type] and [extra_environ] from
    its base Call, whose mapping holds neither: it has them only from its
    own keywords.  Nor does it take the title, the description or the
    response of the base Call. *)
Theorem overridden_fields_not_inherited `{Externals}
    (base_call : Call.t) (title : string) (description : option string)
    (response : option Call.response_value) (given : option pydict)
    (kw : OverriddenCall.kwargs) (oc : OverriddenCall.t) :
  OverriddenCall.init base_call title description response given kw
  = Return oc ->
  let c := OverriddenCall.call oc in
  Call.content_type c
  = OverriddenCall.updated None (OverriddenCall.kw_content_type kw)
  /\ Call.extra_environ c
     = OverriddenCall.updated None (OverriddenCall.kw_extra_environ kw)
  /\ Call.title c = title
  /\ Call.description c = description
  /\ Call.set_response response = Return (Call.response c)
  /\ OverriddenCall.base_call oc = base_call.
Proof.
  intros Hoc.
  destruct (overridden_init_inv _ _ _ _ _ _ _ Hoc)
    as (diff & r & rd & Hdiff & _ & Hr & Hbase & _ & Hcall).
  destruct (diff_keys_but_url given kw diff Hdiff)
    as (_ & _ & Hct & _ & _ & _ & Henv & _).
  simpl. rewrite Hcall. simpl. by rewrite Hct, Henv.
Qed.

Lemma overridden_fields_not_inherited_witness :
  exists oc,
    OverriddenCall.init (H := spec_externals) post_call "replace" None None
      None put_without_form = Return oc
    /\ Call.content_type post_call = Some "application/json"
    /\ Call.content_type (OverriddenCall.call oc) = None
    /\ Call.extra_environ (OverriddenCall.call oc) = None
    /\ Call.description (OverriddenCall.call oc) = None.
Proof.
  eexists. split; [vm_compute; reflexivity |].
  edestruct (overridden_fields_not_inherited (H := spec_externals)
               post_call "replace" None None None put_without_form)
    as (Hct & Henv & _ & Hdescription & _); [vm_compute; reflexivity |].
  split; [reflexivity |].
  split; [exact Hct |]. split; [exact Henv | exact Hdescription].
Defined.

(** An OverriddenCall without the keyword [url] has the URL of its base
    Call, extracted once more, and every URL parameter of its base Call; when
    the URL of the base Call holds no parameter any more, it has that URL
    and those URL parameters exactly. *)
Theorem override_without_url_keeps_base_parameters `{Externals}
    (base_call : Call.t) (title : string) (description : option string)
    (response : option Call.response_value) (given : option pydict)
    (kw : OverriddenCall.kwargs) (oc : OverriddenCall.t) :
  OverriddenCall.kw_url kw = None ->
  OverriddenCall.init base_call title description response given kw
  = Return oc ->
  let c := OverriddenCall.call oc in
  Call.url c = fst (extract_url_parameters (Call.url base_call))
  /\ (forall k v, Call.url_parameters base_call !! k = Some v ->
                  Call.url_parameters c !! k = Some v)
  /\ (search_url_parameter (Call.url base_call) = false ->
      Call.url c = Call.url base_call
      /\ Call.url_parameters c = Call.url_parameters base_call).
Proof.
  intros Hurl Hoc.
  destruct (overridden_init_inv _ _ _ _ _ _ _ Hoc)
    as (diff & r & rd & Hdiff & _ & _ & _ & _ & Hcall).
  pose proof (update_diff_return given kw diff Hdiff) as Hshape.
  rewrite Hurl in Hshape. subst diff. simpl in Hcall. rewrite Hurl in Hcall.
  simpl in *. rewrite Hcall. simpl. split; [reflexivity |]. split.
  - intros k v Hk. by apply update_lookup_given.
  - intros Hstable. rewrite (extract_url_parameters_none _ Hstable). simpl.
    split; [reflexivity | apply update_onto_empty].
Qed.

Lemma override_without_url_keeps_base_parameters_witness :
  exists oc,
    OverriddenCall.init (H := spec_externals) base_a_b "same" None None None
      OverriddenCall.no_kwargs = Return oc
    /\ Call.url (OverriddenCall.call oc) = Call.url base_a_b
    /\ Call.url_parameters (OverriddenCall.call oc)
       = Call.url_parameters base_a_b.
Proof.
  eexists. split; [vm_compute; reflexivity |].
  edestruct (override_without_url_keeps_base_parameters (H := spec_externals)
               base_a_b "same" None None None OverriddenCall.no_kwargs)
    as (_ & _ & Hstable); [reflexivity | vm_compute; reflexivity |].
  apply Hstable. vm_compute. reflexivity.
Defined.

(** Unless the [url_parameters] argument is not empty while no [url] keyword
    is given, an OverriddenCall is constructed whenever the mapping of its
    base Call can be written and the response is accepted.  The diff it
    stores holds the keywords with the URL rewritten, and the key
    [url_parameters], exactly when the key [url] is there: the parameters
    extracted from the URL given, updated with the argument. *)
Theorem overridden_call_is_constructed `{Externals}
    (base_call : Call.t) (title : string) (description : option string)
    (response r : option Call.response_value) (given : option pydict)
    (kw : OverriddenCall.kwargs) (data : Call.dict) :
  Call.to_dict base_call = Return data ->
  Call.set_response response = Return r ->
  OverriddenCall.kw_url kw ≠ None \/ default ∅ given = ∅ ->
  exists oc,
    OverriddenCall.init base_call title description response given kw
    = Return oc
    /\ OverriddenCall.diff oc
       = match OverriddenCall.kw_url kw with
         | Some u =>
             {| OverriddenCall.keys :=
                  OverriddenCall.set_url kw (fst (extract_url_parameters u));
                OverriddenCall.url_parameters :=
                  Some (update (snd (extract_url_parameters u))
                          (default ∅ given)) |}
         | None =>
             {| OverriddenCall.keys := kw;
                OverriddenCall.url_parameters := None |}
         end.
Proof.
  intros Hdata Hr Hok.
  destruct (update_diff_total given kw Hok) as (diff & Hdiff).
  pose proof (update_diff_return given kw diff Hdiff) as Hshape.
  unfold OverriddenCall.init. rewrite Hdiff. simpl. rewrite Hdata. simpl.
  rewrite (call_init_return _ _ _ _ _ _ _ _ _ _ _ _ r Hr). simpl.
  eexists. split; [reflexivity |]. simpl. exact Hshape.
Qed.

Lemma overridden_call_is_constructed_witness :
  exists oc,
    OverriddenCall.init (H := spec_externals) plain_call "o" None None
      (Some {[ "id" := SInt 7 ]})
      (OverriddenCall.set_url OverriddenCall.no_kwargs "/users/id: 1")
    = Return oc
    /\ OverriddenCall.diff oc
       = {| OverriddenCall.keys :=
              OverriddenCall.set_url
                (OverriddenCall.set_url OverriddenCall.no_kwargs "/users/id: 1")
                (fst (extract_url_parameters "/users/id: 1"));
            OverriddenCall.url_parameters :=
              Some (update (snd (extract_url_parameters "/users/id: 1"))
                      (default ∅ (Some ({[ "id" := SInt 7 ]} : pydict)))) |}.
Proof.
  apply (overridden_call_is_constructed (H := spec_externals) plain_call "o"
           None None None (Some {[ "id" := SInt 7 ]})
           (OverriddenCall.set_url OverriddenCall.no_kwargs "/users/id: 1")
           plain_call_dict).
  - reflexivity.
  - reflexivity.
  - left. discriminate.
Defined.

(** ** OverriddenCall and Story: mappings read back *)

Lemma set_url_same (kw : OverriddenCall.kwargs) (u : string) :
  OverriddenCall.kw_url kw = Some u -> OverriddenCall.set_url kw u = kw.
Proof. destruct kw. simpl. by intros ->. Qed.

(** Lines 152-155 on a stable diff give that diff again. *)
Lemma stable_diff_rebuilt (diff : OverriddenCall.diff_t) :
  stable_diff diff ->
  OverriddenCall.update_diff_url_parameters
    (OverriddenCall.url_parameters diff)
    (OverriddenCall.extract_diff_url (OverriddenCall.keys diff))
  = Return diff.
Proof.
  unfold stable_diff, OverriddenCall.update_diff_url_parameters,
    OverriddenCall.extract_diff_url.
  destruct diff as [kw ps]. simpl.
  destruct (OverriddenCall.kw_url kw) as [u |] eqn:Hurl.
  - intros [Hstable Hps]. rewrite (extract_url_parameters_none u Hstable).
    rewrite (set_url_same kw u Hurl).
    destruct ps as [ps |]; [| contradiction]. simpl.
    destruct (decide (ps = ∅)) as [-> | _]; [reflexivity |].
    by rewrite update_onto_empty.
  - intros ->. reflexivity.
Qed.

(** The diff the constructor stores is stable when the URL it rewrote holds
    no parameter any more. *)
Lemma constructed_diff_is_stable `{Externals}
    (base_call : Call.t) (title : string) (description : option string)
    (response : option Call.response_value) (given : option pydict)
    (kw : OverriddenCall.kwargs) (oc : OverriddenCall.t) :
  OverriddenCall.init base_call title description response given kw
  = Return oc ->
  (forall u, OverriddenCall.kw_url kw = Some u ->
             search_url_parameter (fst (extract_url_parameters u)) = false) ->
  stable_diff (OverriddenCall.diff oc).
Proof.
  intros Hoc Hstable.
  destruct (overridden_init_inv _ _ _ _ _ _ _ Hoc)
    as (diff & r & rd & Hdiff & _ & _ & _ & -> & _).
  rewrite (update_diff_return given kw diff Hdiff). unfold stable_diff.
  destruct (OverriddenCall.kw_url kw) as [u |] eqn:Hurl; simpl.
  - split; [by apply Hstable | discriminate].
  - by rewrite Hurl.
Qed.

Lemma overridden_call_reads_back_holds `{Externals} (base_call : Call.t)
    (oc : OverriddenCall.t) (d : OverriddenCall.dict) (data : Call.dict) :
  Call.to_dict base_call = Return data ->
  stable_diff (OverriddenCall.diff oc) ->
  response_attribute_reads_back (Call.response (OverriddenCall.call oc)) ->
  OverriddenCall.to_dict oc = Return d ->
  exists oc',
    OverriddenCall.of_dict base_call d = Return oc'
    /\ OverriddenCall.to_dict oc' = Return d
    /\ OverriddenCall.diff oc' = OverriddenCall.diff oc
    /\ OverriddenCall.base_call oc' = base_call.
Proof.
  intros Hdata Hstable Hresponse Hd. unfold OverriddenCall.to_dict in Hd.
  destruct (Call.response_to_dict (Call.response (OverriddenCall.call oc)))
    as [rd |] eqn:Hrd; simpl in Hd; [| discriminate].
  injection Hd as <-.
  destruct (set_response_reads_back _ rd Hresponse Hrd) as (v' & Hv' & Hrd').
  unfold OverriddenCall.of_dict, OverriddenCall.init. simpl.
  rewrite (stable_diff_rebuilt _ Hstable). simpl. rewrite Hdata. simpl.
  rewrite (call_init_return _ _ _ _ _ _ _ _ _ _ _ _ v' Hv'). simpl.
  eexists. split; [reflexivity |].
  split; [| split; reflexivity].
  unfold OverriddenCall.to_dict. simpl. rewrite Hrd'. reflexivity.
Qed.

(** An OverriddenCall with a stable diff and a response that reads back is
    read back from its mapping against any base Call whose mapping can be
    written: the OverriddenCall built from the mapping has the same diff and
    the same mapping. *)
Theorem overridden_call_reads_back `{Externals} (base_call : Call.t)
    (oc : OverriddenCall.t) (d : OverriddenCall.dict) (data : Call.dict) :
  Call.to_dict base_call = Return data ->
  stable_diff (OverriddenCall.diff oc) ->
  response_attribute_reads_back (Call.response (OverriddenCall.call oc)) ->
  OverriddenCall.to_dict oc = Return d ->
  exists oc',
    OverriddenCall.of_dict base_call d = Return oc'
    /\ OverriddenCall.to_dict oc' = Return d
    /\ OverriddenCall.diff oc' = OverriddenCall.diff oc
    /\ OverriddenCall.base_call oc' = base_call.
Proof. intros. eapply overridden_call_reads_back_holds; eassumption. Qed.

Lemma overridden_call_reads_back_witness :
  OverriddenCall.init (H := spec_externals) plain_call "o" None None None
    (OverriddenCall.set_url OverriddenCall.no_kwargs "/users/id: 1")
  = Return user_override
  /\ exists oc',
       OverriddenCall.of_dict (H := spec_externals) plain_call
         user_override_dict = Return oc'
       /\ OverriddenCall.to_dict (H := spec_externals) oc'
          = Return user_override_dict.
Proof.
  split; [vm_compute; reflexivity |].
  destruct (overridden_call_reads_back (H := spec_externals) plain_call
              user_override user_override_dict plain_call_dict)
    as (oc' & Hoc' & Hd' & _).
  - reflexivity.
  - split; [reflexivity | discriminate].
  - left. reflexivity.
  - reflexivity.
  - exists oc'. split; assumption.
Defined.

Lemma comprehension_reads_back `{Externals} (base_call : Call.t)
    (data : Call.dict) (calls : list OverriddenCall.t)
    (ds : list OverriddenCall.dict) :
  Call.to_dict base_call = Return data ->
  Forall (fun oc =>
            stable_diff (OverriddenCall.diff oc)
            /\ response_attribute_reads_back
                 (Call.response (OverriddenCall.call oc))) calls ->
  comprehension OverriddenCall.to_dict calls = Return ds ->
  exists calls',
    comprehension (OverriddenCall.of_dict base_call) ds = Return calls'
    /\ comprehension OverriddenCall.to_dict calls' = Return ds.
Proof.
  intros Hdata Hcalls. revert ds.
  induction Hcalls as [| oc calls [Hstable Hresponse] _ IH]; intros ds Hds.
  - injection Hds as <-. exists []. split; reflexivity.
  - simpl in Hds.
    destruct (OverriddenCall.to_dict oc) as [d |] eqn:Hd; simpl in Hds;
      [| discriminate].
    destruct (comprehension OverriddenCall.to_dict calls) as [ds' |] eqn:Hds';
      simpl in Hds; [| discriminate].
    injection Hds as <-.
    destruct (overridden_call_reads_back_holds base_call oc d data Hdata Hstable
                Hresponse Hd) as (oc' & Hoc' & Hd' & _).
    destruct (IH ds' eq_refl) as (calls' & Hcalls' & Hds'').
    exists (oc' :: calls'). simpl. rewrite Hoc'. simpl. rewrite Hcalls'. simpl.
    split; [reflexivity |]. rewrite Hd'. simpl. by rewrite Hds''.
Qed.

(** A story reads back from its mapping, giving the same mapping again, when
    its base Call reads back (its URL holds no parameter any more, its
    headers and query normalize to themselves, its response reads back) and
    each of its calls has a stable diff and a response that reads back. *)
Theorem story_reads_back `{Externals} (s : Story.t) (D : Story.dict) :
  search_url_parameter (Call.url (Story.base_call s)) = false ->
  normalize_headers
    (option_map header_lines (Call.headers (Story.base_call s)))
  = Call.headers (Story.base_call s) ->
  normalize_query_string (Call.query (Story.base_call s))
  = Call.query (Story.base_call s) ->
  response_attribute_reads_back (Call.response (Story.base_call s)) ->
  Forall (fun oc =>
            stable_diff (OverriddenCall.diff oc)
            /\ response_attribute_reads_back
                 (Call.response (OverriddenCall.call oc))) (Story.calls s) ->
  Story.to_dict s = Return D ->
  exists s',
    Story.from_dict D = Return s'
    /\ Story.to_dict s' = Return D
    /\ length (Story.calls s') = length (Story.calls s).
Proof.
  intros Hurl Hheaders Hquery Hresponse Hcalls HD.
  unfold Story.to_dict in HD.
  destruct (Call.to_dict (Story.base_call s)) as [bd |] eqn:Hbd; simpl in HD;
    [| discriminate].
  destruct (comprehension OverriddenCall.to_dict (Story.calls s)) as [ds |]
    eqn:Hds; simpl in HD; [| discriminate].
  injection HD as <-.
  destruct (call_reads_back_holds _ bd Hurl Hheaders Hquery Hresponse Hbd)
    as (base' & Hbase' & Hbd' & _).
  destruct (comprehension_reads_back base' bd _ ds Hbd' Hcalls Hds)
    as (calls' & Hcalls' & Hds').
  assert (Hlen : forall (l : list OverriddenCall.t) ds0,
            comprehension OverriddenCall.to_dict l = Return ds0 ->
            length ds0 = length l).
  { induction l as [| oc l IHl]; intros ds0 Hl; simpl in Hl.
    - by injection Hl as <-.
    - destruct (OverriddenCall.to_dict oc); simpl in Hl; [| discriminate].
      destruct (comprehension OverriddenCall.to_dict l) as [ds1 |];
        simpl in Hl; [| discriminate].
      injection Hl as <-. simpl. by rewrite (IHl ds1 eq_refl). }
  unfold Story.from_dict. simpl. rewrite Hbase'. simpl.
  destruct ds as [| d ds].
  - simpl. eexists. split; [reflexivity |].
    unfold Story.to_dict. simpl. rewrite Hbd'. simpl.
    split; [reflexivity |]. by rewrite <- (Hlen _ _ Hds).
  - rewrite Hcalls'. simpl. eexists. split; [reflexivity |].
    unfold Story.to_dict. simpl. rewrite Hbd'. simpl. rewrite Hds'. simpl.
    split; [reflexivity |].
    by rewrite <- (Hlen _ _ Hds'), <- (Hlen _ _ Hds).
Qed.

Lemma story_reads_back_witness :
  exists s',
    Story.from_dict (H := spec_externals) user_story_dict = Return s'
    /\ Story.to_dict (H := spec_externals) s' = Return user_story_dict
    /\ length (Story.calls s') = length (Story.calls user_story).
Proof.
  apply (story_reads_back (H := spec_externals) user_story user_story_dict);
    try reflexivity.
  - left. reflexivity.
  - constructor; [| constructor].
    split; [split; [reflexivity | discriminate] | left; reflexivity].
Defined.

(** ** Call: responses given as mappings *)

Lemma response_mapping_requires_keys `{Externals}
    (title url verb : string) (url_parameters form : option pydict)
    (content_type : option string) (headers : option (list header_item))
    (as_ : option string) (query : option pydict)
    (description : option string) (extra_environ : option pydict)
    (m : Response.dict) :
  Call.mapping_truthy m = true ->
  Response.d_status m = None \/ Response.d_headers m = None ->
  Call.init title url verb url_parameters form content_type headers as_
    query description extra_environ (Some (Call.RMapping m))
  = Raise TypeError.
Proof.
  intros Htruthy Hmissing. unfold Call.init, Call.set_response.
  rewrite Htruthy. unfold Response.of_dict.
  destruct Hmissing as [-> | ->]; [reflexivity |].
  by destruct (Response.d_status m).
Qed.

(** A mapping given as response that has a key but not both [status] and
    [headers] makes the constructor raise TypeError. *)
Theorem response_mapping_requires_status_and_headers `{Externals}
    (title url verb : string) (url_parameters form : option pydict)
    (content_type : option string) (headers : option (list header_item))
    (as_ : option string) (query : option pydict)
    (description : option string) (extra_environ : option pydict)
    (m : Response.dict) :
  Call.mapping_truthy m = true ->
  Response.d_status m = None \/ Response.d_headers m = None ->
  Call.init title url verb url_parameters form content_type headers as_
    query description extra_environ (Some (Call.RMapping m))
  = Raise TypeError.
Proof. intros. eapply response_mapping_requires_keys; eassumption. Qed.

Lemma response_mapping_requires_status_and_headers_witness :
  Call.init (H := spec_externals) "t" "/" "GET" None None None None None None
    None None
    (Some (Call.RMapping {| Response.d_status := Some "200 OK";
                            Response.d_headers := None;
                            Response.d_body := None |}))
  = Raise TypeError.
Proof.
  apply (response_mapping_requires_status_and_headers (H := spec_externals));
    [reflexivity | right; reflexivity].
Defined.

(** A Call that holds a Response without headers is not read back from its
    own mapping: [to_dict] leaves the key [headers] out, and the Call built
    from the mapping raises TypeError. *)
Theorem call_with_headerless_response_is_not_read_back `{Externals}
    (c : Call.t) (r : Response.t) (d : Call.dict) :
  Call.response c = Some (Call.RObject r) ->
  Response.headers r = [] ->
  Call.to_dict c = Return d ->
  Call.of_dict d = Raise TypeError.
Proof.
  intros Hr Hheaders Hd.
  destruct (call_to_dict_inv c d Hd) as (rd & Hrd & ->).
  rewrite Hr in Hrd. simpl in Hrd.
  destruct (Response.to_dict r) as [d0 |] eqn:Hd0; simpl in Hrd; [| discriminate].
  injection Hrd as <-.
  destruct (response_to_dict_inv r d0 Hd0) as (Hstatus & Hdh & _).
  rewrite Hheaders in Hdh.
  unfold Call.of_dict. simpl.
  apply response_mapping_requires_keys; [| by right].
  unfold Call.mapping_truthy. by rewrite Hstatus.
Qed.

Lemma call_with_headerless_response_is_not_read_back_witness :
  exists d,
    Call.to_dict (H := spec_externals) call_with_headerless_response = Return d
    /\ Call.of_dict (H := spec_externals) d = Raise TypeError.
Proof.
  eexists. split; [vm_compute; reflexivity |].
  apply (call_with_headerless_response_is_not_read_back (H := spec_externals)
           call_with_headerless_response headerless_response);
    reflexivity.
Defined.

(** An empty mapping given as response is stored as it is, whatever the
    other arguments, and the Call then has no mapping: [to_dict] raises
    AttributeError. *)
Theorem empty_response_mapping_is_stored `{Externals}
    (title url verb : string) (url_parameters form : option pydict)
    (content_type : option string) (headers : option (list header_item))
    (as_ : option string) (query : option pydict)
    (description : option string) (extra_environ : option pydict) :
  let empty := {| Response.d_status := None; Response.d_headers := None;
                  Response.d_body := None |} in
  exists c,
    Call.init title url verb url_parameters form content_type headers as_
      query description extra_environ (Some (Call.RMapping empty)) = Return c
    /\ Call.response c = Some (Call.RMapping empty)
    /\ Call.to_dict c = Raise AttributeError.
Proof.
  intros empty.
  rewrite (call_init_return title url verb url_parameters form content_type
             headers as_ query description extra_environ
             (Some (Call.RMapping empty)) (Some (Call.RMapping empty)) eq_refl).
  eexists. split; [reflexivity |]. split; reflexivity.
Qed.

(** ** Call.invoke: the request and the Response *)

(** Storing a list where there was nothing, or a list, changes no mapping
    read through the store. *)
Lemma read_dict_insert_list (σ : Invoke.store) (l : Invoke.loc)
    (new : list (string * string)) (x : option Invoke.loc) :
  σ !! l = None \/ (exists items, σ !! l = Some (Invoke.OList items)) ->
  Invoke.read_dict (<[l := Invoke.OList new]> σ) x = Invoke.read_dict σ x.
Proof.
  intros Hl. unfold Invoke.read_dict. destruct x as [x |]; [| reflexivity].
  destruct (decide (l = x)) as [<- | Hne].
  - rewrite lookup_insert_eq. by destruct Hl as [-> | (items & ->)].
  - by rewrite lookup_insert_ne.
Qed.

Lemma read_dict_alloc_list (σ : Invoke.store) (new : list (string * string))
    (x : option Invoke.loc) :
  Invoke.read_dict (snd (Invoke.alloc σ (Invoke.OList new))) x
  = Invoke.read_dict σ x.
Proof.
  unfold Invoke.alloc. simpl. apply read_dict_insert_list.
  left. apply not_elem_of_dom. apply is_fresh.
Qed.

Lemma read_list_alloc (σ : Invoke.store) (new : list (string * string)) :
  Invoke.read_list (snd (Invoke.alloc σ (Invoke.OList new)))
    (Some (fst (Invoke.alloc σ (Invoke.OList new)))) = Some new.
Proof. unfold Invoke.alloc, Invoke.read_list. simpl. by rewrite lookup_insert_eq. Qed.

Lemma read_alloc_append (σ : Invoke.store) (new : list (string * string))
    (x : string * string) (y : option Invoke.loc) :
  let l := fst (Invoke.alloc σ (Invoke.OList new)) in
  let σ' := Invoke.append (snd (Invoke.alloc σ (Invoke.OList new))) l x in
  Invoke.read_list σ' (Some l) = Some (new ++ [x])%list
  /\ Invoke.read_dict σ' y = Invoke.read_dict σ y.
Proof.
  unfold Invoke.alloc, Invoke.append, Invoke.read_list. simpl.
  rewrite lookup_insert_eq. split.
  - by rewrite lookup_insert_eq.
  - rewrite read_dict_insert_list;
      [| right; eexists; apply lookup_insert_eq].
    apply read_dict_insert_list. left. apply not_elem_of_dom. apply is_fresh.
Qed.

(** The headers of the request when a content type is set: those of the
    Call that are not named Content-Type, in whatever case, then the content
    type of the Call. *)
Lemma filter_content_type_last (hs : list (string * string)) (ct : string) :
  filter (fun h => Invoke.not_content_type h = false)
    (filter (fun h => Invoke.not_content_type h = true) hs
     ++ [("Content-Type", ct)])%list
  = [("Content-Type", ct)].
Proof.
  rewrite filter_app.
  replace (filter (fun h => Invoke.not_content_type h = false)
             (filter (fun h => Invoke.not_content_type h = true) hs))
    with (@nil (string * string)); [reflexivity |].
  symmetry. induction hs as [| h hs IH]; [reflexivity |].
  rewrite (filter_cons (fun h => Invoke.not_content_type h = true)).
  destruct (decide (Invoke.not_content_type h = true)) as [Hh | Hh]; [| exact IH].
  rewrite (filter_cons (fun h => Invoke.not_content_type h = false)).
  destruct (decide (Invoke.not_content_type h = false)) as [Hh' | _];
    [congruence | exact IH].
Qed.

Lemma invoke_request_holds `{Externals} (application : Type)
    (urlencode : pydict -> string)
    (gen_request :
       application -> string -> string -> option pydict ->
       list (string * string) -> option pydict ->
       result (string * list (string * string) * bytes))
    (σ : Invoke.store) (self : Invoke.loc) (app : application)
    (a : Invoke.attributes) :
  σ !! self = Some (Invoke.OCall a) ->
  let own_headers :=
    match Invoke.read_list σ (Invoke.headers a) with
    | Some (h :: hs) => h :: hs
    | _ => []
    end in
  let sent_headers :=
    match Invoke.content_type a with
    | Some (String c ct) =>
        (filter (fun h => Invoke.not_content_type h = true) own_headers
         ++ [("Content-Type", String c ct)])%list
    | _ => own_headers
    end in
  let sent_url :=
    match Invoke.read_dict σ (Invoke.query a) with
    | Some q =>
        if decide (q = ∅) then Invoke.url a
        else Invoke.url a +:+ "?" +:+ urlencode q
    | None => Invoke.url a
    end in
  let sent_params :=
    match Invoke.read_dict σ (Invoke.form a) with
    | Some f => if decide (f = ∅) then None else Some f
    | None => None
    end in
  fst (Invoke.invoke application urlencode gen_request σ self app)
  = ('(status, hs, body) ←
       gen_request app (Invoke.verb a) sent_url
         (Invoke.read_dict σ (Invoke.extra_environ a)) sent_headers sent_params;
     Response.init status (Some (map (fun h => HPair (fst h) (snd h)) hs))
       (Some (Response.BBytes body)))
  /\ (forall c ct, Invoke.content_type a = Some (String c ct) ->
      filter (fun h => Invoke.not_content_type h = false) sent_headers
      = [("Content-Type", String c ct)]).
Proof.
  intros Hself own_headers sent_headers sent_url sent_params. split.
  - unfold Invoke.invoke. rewrite Hself.
    set (first := match Invoke.headers a, Invoke.read_list σ (Invoke.headers a) with
                  | Some l, Some (_ :: _) => (l, σ)
                  | _, _ => Invoke.alloc σ (Invoke.OList [])
                  end).
    assert (Hfirst :
              default [] (Invoke.read_list (snd first) (Some (fst first)))
              = own_headers
              /\ forall x, Invoke.read_dict (snd first) x = Invoke.read_dict σ x).
    { unfold first, own_headers.
      destruct (Invoke.headers a) as [l |].
      - destruct (Invoke.read_list σ (Some l)) as [[| h hs] |] eqn:Hl.
        + rewrite read_list_alloc. split; [reflexivity |].
          intros x. apply read_dict_alloc_list.
        + simpl fst. simpl snd. rewrite Hl. split; reflexivity.
        + rewrite read_list_alloc. split; [reflexivity |].
          intros x. apply read_dict_alloc_list.
      - rewrite read_list_alloc. split; [reflexivity |].
        intros x. apply read_dict_alloc_list. }
    destruct Hfirst as [Hown Hdicts].
    destruct first as [headers0 σ0]. cbn [fst snd] in Hown, Hdicts.
    unfold sent_headers, sent_params.
    destruct (Invoke.content_type a) as [[| c ct] |].
    + lazy beta iota zeta. rewrite !Hdicts, Hown. reflexivity.
    + pose proof (read_alloc_append σ0
                    (filter (fun h => Invoke.not_content_type h = true) own_headers)
                    ("Content-Type", String c ct)) as Hsecond.
      unfold Invoke.alloc in *. cbn [fst snd] in Hsecond.
      lazy beta iota zeta. rewrite Hown.
      lazy beta iota zeta in Hsecond.
      destruct (Hsecond None) as [Hlist _]. rewrite Hlist.
      rewrite !(fun y => proj2 (Hsecond y)), !Hdicts. reflexivity.
    + lazy beta iota zeta. rewrite !Hdicts, Hown. reflexivity.
  - intros c ct Hct. unfold sent_headers. rewrite Hct.
    apply filter_content_type_last.
Qed.

(** What [invoke] hands to the transport, in terms of the Call: the URL,
    with the encoded query after a question mark when the query is not
    empty; the headers of the Call, or, when a content type is set, those
    not named Content-Type in whatever case followed by the content type of
    the Call, so that the request has exactly one such header; the form as
    parameters when it is not empty.  The Response is built from what the
    transport answers, and what the transport raises is raised. *)
Theorem invoke_builds_request `{Externals} (application : Type)
    (urlencode : pydict -> string)
    (gen_request :
       application -> string -> string -> option pydict ->
       list (string * string) -> option pydict ->
       result (string * list (string * string) * bytes))
    (σ : Invoke.store) (self : Invoke.loc) (app : application)
    (a : Invoke.attributes) :
  σ !! self = Some (Invoke.OCall a) ->
  let own_headers :=
    match Invoke.read_list σ (Invoke.headers a) with
    | Some (h :: hs) => h :: hs
    | _ => []
    end in
  let sent_headers :=
    match Invoke.content_type a with
    | Some (String c ct) =>
        (filter (fun h => Invoke.not_content_type h = true) own_headers
         ++ [("Content-Type", String c ct)])%list
    | _ => own_headers
    end in
  let sent_url :=
    match Invoke.read_dict σ (Invoke.query a) with
    | Some q =>
        if decide (q = ∅) then Invoke.url a
        else Invoke.url a +:+ "?" +:+ urlencode q
    | None => Invoke.url a
    end in
  let sent_params :=
    match Invoke.read_dict σ (Invoke.form a) with
    | Some f => if decide (f = ∅) then None else Some f
    | None => None
    end in
  fst (Invoke.invoke application urlencode gen_request σ self app)
  = ('(status, hs, body) ←
       gen_request app (Invoke.verb a) sent_url
         (Invoke.read_dict σ (Invoke.extra_environ a)) sent_headers sent_params;
     Response.init status (Some (map (fun h => HPair (fst h) (snd h)) hs))
       (Some (Response.BBytes body)))
  /\ (forall c ct, Invoke.content_type a = Some (String c ct) ->
      filter (fun h => Invoke.not_content_type h = false) sent_headers
      = [("Content-Type", String c ct)]).
Proof. intros. eapply invoke_request_holds; eassumption. Qed.

Lemma invoke_builds_request_witness :
  fst (Invoke.invoke (H := spec_externals) unit (fun _ => EmptyString)
         ok_transport sample_store 1%positive tt)
  = ('(status, hs, body) ←
       ok_transport tt "GET" "/" None [("Content-Type", "text/plain")] None;
     Response.init (H := spec_externals) status
       (Some (map (fun h => HPair (fst h) (snd h)) hs))
       (Some (Response.BBytes body))).
Proof.
  destruct (invoke_builds_request (H := spec_externals) unit
              (fun _ => EmptyString) ok_transport sample_store 1%positive tt
              sample_attributes eq_refl) as [Hsent _].
  exact Hsent.
Defined.

(** An OverriddenCall constructed without a response, whose URL keyword, if
    any, is rewritten into a URL that holds no parameter any more, is read
    back from its mapping against the same base Call as the very same
    OverriddenCall: the same diff and, attribute for attribute, the same
    effective Call. *)
Theorem constructed_override_reads_back_identically `{Externals}
    (base_call : Call.t) (title : string) (description : option string)
    (given : option pydict) (kw : OverriddenCall.kwargs)
    (oc : OverriddenCall.t) :
  OverriddenCall.init base_call title description None given kw = Return oc ->
  (forall u, OverriddenCall.kw_url kw = Some u ->
             search_url_parameter (fst (extract_url_parameters u)) = false) ->
  exists d,
    OverriddenCall.to_dict oc = Return d
    /\ OverriddenCall.of_dict base_call d = Return oc.
Proof.
  intros Hoc Hstable.
  pose proof (constructed_diff_is_stable _ _ _ _ _ _ _ Hoc Hstable) as Hdiff.
  unfold OverriddenCall.init in Hoc.
  destruct (OverriddenCall.update_diff_url_parameters given
              (OverriddenCall.extract_diff_url kw)) as [diff |];
    simpl in Hoc; [| discriminate].
  destruct (Call.to_dict base_call) as [data |] eqn:Hdata; simpl in Hoc;
    [| discriminate].
  match type of Hoc with
  | context [Call.init ?a1 ?a2 ?a3 ?a4 ?a5 ?a6 ?a7 ?a8 ?a9 ?a10 ?a11 ?a12] =>
      destruct (Call.init a1 a2 a3 a4 a5 a6 a7 a8 a9 a10 a11 a12) as [c |]
        eqn:Hc; simpl in Hoc; [| discriminate]
  end.
  injection Hoc as <-. simpl in Hdiff.
  pose proof Hc as Hc'.
  rewrite (call_init_return _ _ _ _ _ _ _ _ _ _ _ None None eq_refl) in Hc'.
  injection Hc' as Hc'.
  assert (Htitle : Call.title c = title) by (by rewrite <- Hc').
  assert (Hdescription : Call.description c = description) by (by rewrite <- Hc').
  assert (Hresponse : Call.response c = None) by (by rewrite <- Hc').
  unfold OverriddenCall.to_dict. simpl. rewrite Hresponse. simpl.
  eexists. split; [reflexivity |].
  unfold OverriddenCall.of_dict, OverriddenCall.init. simpl.
  rewrite (stable_diff_rebuilt diff Hdiff). simpl. rewrite Hdata. simpl.
  rewrite Htitle, Hdescription, Hc. reflexivity.
Qed.

Lemma constructed_override_reads_back_identically_witness :
  OverriddenCall.to_dict (H := spec_externals) user_override
  = Return user_override_dict
  /\ OverriddenCall.of_dict (H := spec_externals) plain_call user_override_dict
     = Return user_override.
Proof.
  destruct (constructed_override_reads_back_identically (H := spec_externals)
              plain_call "o" None None
              (OverriddenCall.set_url OverriddenCall.no_kwargs "/users/id: 1")
              user_override) as (d & Hd & Hoc).
  - vm_compute. reflexivity.
  - intros u [= <-]. vm_compute. reflexivity.
  - assert (Hd' : OverriddenCall.to_dict (H := spec_externals) user_override
                  = Return user_override_dict) by reflexivity.
    rewrite Hd' in Hd. injection Hd as <-. split; [exact Hd' | exact Hoc].
Defined.

(** ** int: the literals it accepts, and the numbers they denote *)

Lemma all_int_space_all_chars (s : string) :
  all_int_space s = all_chars is_int_space s.
Proof.
  unfold all_int_space. induction s as [| c s IH]; simpl; [reflexivity |].
  by rewrite IH.
Qed.

Lemma is_int_space_not_digit (c : ascii) :
  is_int_space c = true -> is_digit c = false.
Proof.
  intros Hc. destruct (is_digit c) eqn:Hd; [| reflexivity].
  by rewrite (is_digit_not_int_space c Hd) in Hc.
Qed.

Lemma is_int_space_not_mark (c : ascii) :
  is_int_space c = true ->
  Ascii.eqb c "_" = false /\ Ascii.eqb c "-" = false /\ Ascii.eqb c "+" = false.
Proof.
  intros Hc. repeat split.
  - destruct (Ascii.eqb_spec c "_") as [-> | _]; [discriminate | reflexivity].
  - destruct (Ascii.eqb_spec c "-") as [-> | _]; [discriminate | reflexivity].
  - destruct (Ascii.eqb_spec c "+") as [-> | _]; [discriminate | reflexivity].
Qed.

Lemma is_digit_not_mark (c : ascii) :
  is_digit c = true ->
  Ascii.eqb c "_" = false /\ Ascii.eqb c "-" = false /\ Ascii.eqb c "+" = false.
Proof.
  intros Hc. repeat split.
  - destruct (Ascii.eqb_spec c "_") as [-> | _]; [discriminate | reflexivity].
  - destruct (Ascii.eqb_spec c "-") as [-> | _]; [discriminate | reflexivity].
  - destruct (Ascii.eqb_spec c "+") as [-> | _]; [discriminate | reflexivity].
Qed.

(** [int] looks at the sign after the blanks, then reads digits. *)
Lemma int_eq (s : string) :
  int s
  = match int_lstrip s with
    | String c r =>
        if Ascii.eqb c "-" then
          match int_digits 0 false r with
          | Some z => Return (- z)
          | None => Raise ValueError
          end
        else if Ascii.eqb c "+" then
          match int_digits 0 false r with
          | Some z => Return z
          | None => Raise ValueError
          end
        else
          match int_digits 0 false (String c r) with
          | Some z => Return z
          | None => Raise ValueError
          end
    | EmptyString => Raise ValueError
    end.
Proof.
  unfold int. destruct (int_lstrip s) as [| c r]; [reflexivity |].
  destruct (Ascii.eqb_spec c "-") as [-> | Hminus].
  { simpl. by destruct (int_digits 0 false r). }
  destruct (Ascii.eqb_spec c "+") as [-> | Hplus]; [reflexivity |].
  destruct c as [[] [] [] [] [] [] [] []]; try reflexivity; congruence.
Qed.

Lemma int_lstrip_app (pre r : string) :
  all_chars is_int_space pre = true -> starts_with is_int_space r = false ->
  int_lstrip (pre +:+ r) = r.
Proof.
  intros Hpre Hr. induction pre as [| c pre IH].
  - change (EmptyString +:+ r) with r. destruct r as [| c r]; [reflexivity |].
    simpl in *. by rewrite Hr.
  - rewrite str_app_cons. simpl in *. apply andb_true_iff in Hpre as [Hc Hpre].
    rewrite Hc. by apply IH.
Qed.

Lemma int_lstrip_split (s : string) :
  exists pre,
    s = pre +:+ int_lstrip s /\ all_chars is_int_space pre = true.
Proof.
  induction s as [| c s (pre & Hs & Hpre)].
  - exists EmptyString. split; reflexivity.
  - simpl. destruct (is_int_space c) eqn:Hc.
    + exists (String c pre). rewrite str_app_cons. simpl.
      rewrite Hc, Hpre. split; [by f_equal | reflexivity].
    + exists EmptyString. split; reflexivity.
Qed.

(** After a digit, the rest of a literal and blanks are read to the end. *)
Lemma int_digits_tail (body post : string) (acc : Z) :
  digit_tail body -> all_chars is_int_space post = true ->
  exists z, int_digits acc true (body +:+ post) = Some z.
Proof.
  intros Hbody Hpost. revert acc.
  induction Hbody as [| c t Hc _ IH | c t Hc _ IH]; intros acc.
  - change (EmptyString +:+ post) with post.
    destruct post as [| c post]; [by exists acc |].
    simpl in *. apply andb_true_iff in Hpost as [Hc Hpost].
    rewrite (is_int_space_not_digit c Hc).
    destruct (is_int_space_not_mark c Hc) as (-> & _ & _).
    rewrite Hc, all_int_space_all_chars, Hpost. by exists acc.
  - rewrite str_app_cons. simpl. rewrite Hc. apply IH.
  - rewrite !str_app_cons. simpl. rewrite Hc. apply IH.
Qed.

Lemma int_digits_groups (body post : string) (acc : Z) :
  digit_groups body -> all_chars is_int_space post = true ->
  exists z, int_digits acc false (body +:+ post) = Some z.
Proof.
  intros (c & t & -> & Hc & Ht) Hpost.
  rewrite str_app_cons. simpl. rewrite Hc. by apply int_digits_tail.
Qed.

(** What is read to the end is the rest of a literal and blanks. *)
Lemma int_digits_accepted (t : string) :
  forall acc z,
    (int_digits acc true t = Some z ->
     exists body post,
       t = body +:+ post /\ digit_tail body
       /\ all_chars is_int_space post = true)
    /\ (int_digits acc false t = Some z ->
        exists body post,
          t = body +:+ post /\ digit_groups body
          /\ all_chars is_int_space post = true).
Proof.
  induction t as [| c t IH]; intros acc z.
  - split; [| discriminate]. intros _.
    exists EmptyString, EmptyString. repeat split. constructor.
  - simpl. destruct (is_digit c) eqn:Hc.
    + split; intros Hz;
        destruct (proj1 (IH _ z) Hz) as (body & post & -> & Hbody & Hpost);
        exists (String c body), post; (split; [reflexivity |]);
        (split; [| exact Hpost]).
      * by constructor.
      * by exists c, body.
    + destruct (Ascii.eqb_spec c "_") as [-> | Hmark].
      * split; [| discriminate]. intros Hz.
        destruct (proj2 (IH _ z) Hz)
          as (body & post & -> & (c' & t' & -> & Hc' & Ht') & Hpost).
        exists (String "_" (String c' t')), post.
        split; [reflexivity |]. split; [by constructor | exact Hpost].
      * split.
        -- rewrite andb_true_r. intros Hz.
           destruct (is_int_space c) eqn:Hspace; [| discriminate].
           destruct (all_int_space t) eqn:Hrest; [| discriminate].
           exists EmptyString, (String c t). split; [reflexivity |].
           split; [constructor |]. simpl.
           by rewrite Hspace, <- all_int_space_all_chars, Hrest.
        -- rewrite andb_false_r. discriminate.
Qed.

(** [int] returns a number exactly on the literals. *)
Lemma int_accepts_literals (s : string) :
  (exists z, int s = Return z) <-> int_literal s.
Proof.
  split.
  - intros [z Hz]. rewrite int_eq in Hz.
    destruct (int_lstrip_split s) as (pre & Hs & Hpre).
    destruct (int_lstrip s) as [| c r]; [discriminate |].
    destruct (Ascii.eqb_spec c "-") as [-> | Hminus];
      [| destruct (Ascii.eqb_spec c "+") as [-> | Hplus]].
    + destruct (int_digits 0 false r) as [z' |] eqn:Hr; [| discriminate].
      destruct (proj2 (int_digits_accepted r 0 z') Hr)
        as (body & post & -> & Hbody & Hpost).
      exists pre, "-", body, post. rewrite Hs. repeat split; auto.
    + destruct (int_digits 0 false r) as [z' |] eqn:Hr; [| discriminate].
      destruct (proj2 (int_digits_accepted r 0 z') Hr)
        as (body & post & -> & Hbody & Hpost).
      exists pre, "+", body, post. rewrite Hs. repeat split; auto.
    + destruct (int_digits 0 false (String c r)) as [z' |] eqn:Hr;
        [| discriminate].
      destruct (proj2 (int_digits_accepted (String c r) 0 z') Hr)
        as (body & post & Heq & Hbody & Hpost).
      exists pre, EmptyString, body, post. rewrite Hs, Heq.
      repeat split; auto.
  - intros (pre & sign & body & post & -> & Hpre & Hsign & Hbody & Hpost).
    rewrite int_eq.
    pose proof Hbody as (c & t & -> & Hc & Ht).
    destruct (is_digit_not_mark c Hc) as (_ & Hminus & Hplus).
    destruct Hsign as [-> | [-> | ->]].
    + change (EmptyString +:+ String c t +:+ post) with (String c t +:+ post).
      rewrite int_lstrip_app;
        [| exact Hpre | simpl; by apply is_digit_not_int_space].
      rewrite str_app_cons, Hminus, Hplus. rewrite <- str_app_cons.
      destruct (int_digits_groups (String c t) post 0 Hbody Hpost) as [z ->].
      by exists z.
    + rewrite int_lstrip_app; [| exact Hpre | reflexivity].
      rewrite str_app_cons. change (Ascii.eqb "+" "-") with false.
      change (Ascii.eqb "+" "+") with true. cbv beta iota.
      change (EmptyString +:+ ?x) with x.
      destruct (int_digits_groups (String c t) post 0 Hbody Hpost) as [z ->].
      by exists z.
    + rewrite int_lstrip_app; [| exact Hpre | reflexivity].
      rewrite str_app_cons. change (Ascii.eqb "-" "-") with true.
      cbv beta iota. change (EmptyString +:+ ?x) with x.
      destruct (int_digits_groups (String c t) post 0 Hbody Hpost) as [z ->].
      by exists (- z).
Qed.

Lemma int_not_literal (s : string) :
  ~ int_literal s -> int s = Raise ValueError.
Proof.
  intros Hs. destruct (int s) as [z | e] eqn:Hz.
  - destruct Hs. apply int_accepts_literals. by exists z.
  - rewrite int_eq in Hz.
    destruct (int_lstrip s) as [| c r]; [by injection Hz as <- |].
    destruct (Ascii.eqb c "-"); [| destruct (Ascii.eqb c "+")];
      match type of Hz with
      | context [int_digits ?a ?b ?t] => destruct (int_digits a b t)
      end; by simplify_eq.
Qed.

Lemma decimal_from_uint_acc (d : Decimal.uint) (p : positive) :
  decimal_from (Z.pos p) (NilEmpty.string_of_uint d)
  = Z.pos (Pos.of_uint_acc d p).
Proof.
  revert p. induction d; intros p; simpl; [reflexivity | ..];
    rewrite <- IHd; f_equal; unfold digit_value; simpl; lia.
Qed.

Lemma decimal_from_uint (d : Decimal.uint) :
  decimal_from 0 (NilEmpty.string_of_uint d) = Z.of_N (Pos.of_uint d).
Proof.
  induction d; simpl; [reflexivity | exact IHd | ..];
    apply decimal_from_uint_acc.
Qed.

Lemma all_digits_uint (d : Decimal.uint) :
  all_digits (NilEmpty.string_of_uint d) = true.
Proof. induction d; simpl; [reflexivity | ..]; exact IHd. Qed.

Lemma numeral_not_empty (n : N) : numeral n ≠ EmptyString.
Proof.
  unfold numeral, NilZero.string_of_uint.
  destruct (N.to_uint n); discriminate.
Qed.

Lemma numeral_all_digits (n : N) : all_digits (numeral n) = true.
Proof.
  unfold numeral, NilZero.string_of_uint.
  destruct (N.to_uint n) eqn:Hn; [reflexivity | ..];
    rewrite <- Hn; apply all_digits_uint.
Qed.

(** The digits of the numeral of [n] denote [n]. *)
Lemma decimal_numeral (n : N) : decimal (numeral n) = Z.of_N n.
Proof.
  unfold decimal, numeral, NilZero.string_of_uint.
  rewrite <- (DecimalN.Unsigned.of_to n) at 2. unfold N.of_uint.
  destruct (N.to_uint n) eqn:Hn; [reflexivity | ..];
    rewrite <- Hn; apply decimal_from_uint.
Qed.

Lemma split_space_no_space (s : string) :
  contains_space s = false -> split_space s = [s].
Proof.
  induction s as [| c s IH]; simpl; [reflexivity |].
  intros Hs. apply orb_false_iff in Hs as [Hc Hs].
  by rewrite Hc, (IH Hs).
Qed.

(** The status line does not parse when its first token is no literal. *)
Lemma parse_status_not_literal (status : string) :
  ~ int_literal (hd EmptyString (split_space status)) ->
  Response.parse_status status = Raise ValueError.
Proof.
  intros Htoken. unfold Response.parse_status.
  destruct (contains_space status) eqn:Hspace.
  - by rewrite (int_not_literal _ Htoken).
  - rewrite (split_space_no_space status Hspace) in Htoken. simpl in Htoken.
    by rewrite (int_not_literal _ Htoken).
Qed.

(** C8: a status line whose first token is not an integer literal, a status
    line with no space that is not one in particular, makes the constructor
    raise ValueError; a status line with no space that is a literal is
    accepted, and [status_text] is then not set.  For the status line made of
    the numeral of a number [n], a space and a text, [status_code] is [n] and
    [status_text] is everything after that space; for the numeral alone,
    [status_code] is [n] and [status_text] is not set.  The same holds of any
    run of digits, leading zeros included, with the number the digits
    denote. *)
Theorem status_line_parsing `{Externals} :
  (forall (status : string) (headers : option (list header_item))
          (body : option Response.body_arg),
     ~ int_literal (hd EmptyString (split_space status)) ->
     Response.init status headers body = Raise ValueError)
  /\ (forall (status : string) (headers : option (list header_item))
             (body : option Response.body_arg),
        contains_space status = false ->
        ~ int_literal status ->
        Response.init status headers body = Raise ValueError)
  /\ (forall (status : string) (headers : option (list header_item))
             (body : option Response.body_arg),
        contains_space status = false ->
        has_other_char status = true ->
        Response.init status headers body = Raise ValueError)
  /\ (forall (status : string) (headers : option (list header_item))
             (body : option Response.body_arg) (hs : list (string * string)),
        contains_space status = false ->
        int_literal status ->
        normalize_headers headers = Some hs ->
        exists r,
          Response.init status headers body = Return r
          /\ int status = Return (Response.status_code r)
          /\ Response.status_text r = None)
  /\ (forall (n : N) (rest : string) (headers : option (list header_item))
             (body : option Response.body_arg) (hs : list (string * string)),
        normalize_headers headers = Some hs ->
        exists r,
          Response.init (numeral n +:+ " " +:+ rest) headers body = Return r
          /\ Response.status_code r = Z.of_N n
          /\ Response.status_text r = Some rest)
  /\ (forall (n : N) (headers : option (list header_item))
             (body : option Response.body_arg) (hs : list (string * string)),
        normalize_headers headers = Some hs ->
        exists r,
          Response.init (numeral n) headers body = Return r
          /\ Response.status_code r = Z.of_N n
          /\ Response.status_text r = None)
  /\ (forall (digits rest : string) (headers : option (list header_item))
             (body : option Response.body_arg) (hs : list (string * string)),
        digits ≠ EmptyString -> all_digits digits = true ->
        normalize_headers headers = Some hs ->
        exists r,
          Response.init (digits +:+ " " +:+ rest) headers body = Return r
          /\ Response.status_code r = decimal digits
          /\ Response.status_text r = Some rest)
  /\ (forall (digits : string) (headers : option (list header_item))
             (body : option Response.body_arg) (hs : list (string * string)),
        digits ≠ EmptyString -> all_digits digits = true ->
        normalize_headers headers = Some hs ->
        exists r,
          Response.init digits headers body = Return r
          /\ Response.status_code r = decimal digits
          /\ Response.status_text r = None).
Proof.
  assert (Htext : forall digits rest headers body hs,
            digits ≠ EmptyString -> all_digits digits = true ->
            normalize_headers headers = Some hs ->
            exists r,
              Response.init (digits +:+ " " +:+ rest) headers body = Return r
              /\ Response.status_code r = decimal digits
              /\ Response.status_text r = Some rest).
  { intros digits rest headers body hs Hne Hall Hhs. unfold Response.init.
    rewrite (parse_status_code_text digits rest Hne Hall), Hhs. simpl.
    destruct (Response.scan_content_type hs) as [ct enc].
    eexists. split; [reflexivity |]. split; reflexivity. }
  assert (Hcode : forall digits headers body hs,
            digits ≠ EmptyString -> all_digits digits = true ->
            normalize_headers headers = Some hs ->
            exists r,
              Response.init digits headers body = Return r
              /\ Response.status_code r = decimal digits
              /\ Response.status_text r = None).
  { intros digits headers body hs Hne Hall Hhs. unfold Response.init.
    rewrite (parse_status_code_only digits Hne Hall), Hhs. simpl.
    destruct (Response.scan_content_type hs) as [ct enc].
    eexists. split; [reflexivity |]. split; reflexivity. }
  repeat apply conj.
  - intros status headers body Htoken. unfold Response.init.
    by rewrite (parse_status_not_literal status Htoken).
  - intros status headers body Hspace Htoken. unfold Response.init.
    rewrite parse_status_not_literal; [reflexivity |].
    by rewrite (split_space_no_space status Hspace).
  - intros status headers body Hspace Hother.
    unfold Response.init, Response.parse_status.
    by rewrite Hspace, (int_other status Hother).
  - intros status headers body hs Hspace Hliteral Hhs.
    apply int_accepts_literals in Hliteral as [z Hz].
    unfold Response.init, Response.parse_status. rewrite Hspace, Hz, Hhs. simpl.
    destruct (Response.scan_content_type hs) as [ct enc].
    eexists. split; [reflexivity |]. split; reflexivity.
  - intros n rest headers body hs Hhs.
    destruct (Htext (numeral n) rest headers body hs (numeral_not_empty n)
                (numeral_all_digits n) Hhs) as (r & Hr & Hstatus & Hrest).
    exists r. rewrite <- (decimal_numeral n). auto.
  - intros n headers body hs Hhs.
    destruct (Hcode (numeral n) headers body hs (numeral_not_empty n)
                (numeral_all_digits n) Hhs) as (r & Hr & Hstatus & Hrest).
    exists r. rewrite <- (decimal_numeral n). auto.
  - exact Htext.
  - exact Hcode.
Qed.

Lemma status_line_parsing_witness :
  Response.init (H := spec_externals) "OK" (Some []) None = Raise ValueError
  /\ Response.init (H := spec_externals) "" (Some []) None = Raise ValueError
  /\ Response.init (H := spec_externals) "-" (Some []) None = Raise ValueError
  /\ Response.init (H := spec_externals) "1_" (Some []) None = Raise ValueError
  /\ Response.init (H := spec_externals) "Not Found" (Some []) None
     = Raise ValueError
  /\ (exists r,
        Response.init (H := spec_externals) "200 OK" (Some []) None = Return r
        /\ Response.status_code r = 200
        /\ Response.status_text r = Some "OK")
  /\ (exists r,
        Response.init (H := spec_externals) "204" (Some []) None = Return r
        /\ Response.status_code r = 204
        /\ Response.status_text r = None)
  /\ (exists r,
        Response.init (H := spec_externals) "007 x" (Some []) None = Return r
        /\ Response.status_code r = 7
        /\ Response.status_text r = Some "x").
Proof.
  destruct (status_line_parsing (H := spec_externals))
    as (Htoken & Hmalformed & _ & _ & Htext & Hcode & Hdigits & _).
  assert (Hno : forall s, int s = Raise ValueError -> ~ int_literal s).
  { intros s Hs Hliteral. apply int_accepts_literals in Hliteral as [z Hz].
    rewrite Hs in Hz. discriminate. }
  repeat apply conj.
  - apply Hmalformed; [reflexivity | apply Hno; reflexivity].
  - apply Hmalformed; [reflexivity | apply Hno; reflexivity].
  - apply Hmalformed; [reflexivity | apply Hno; reflexivity].
  - apply Hmalformed; [reflexivity | apply Hno; reflexivity].
  - apply Htoken. apply Hno. reflexivity.
  - exact (Htext 200%N "OK" (Some []) None [] eq_refl).
  - exact (Hcode 204%N (Some []) None [] eq_refl).
  - apply (Hdigits "007" "x" (Some []) None []); [discriminate | reflexivity ..].
Defined.

(** ** Call.invoke: the status the transport answers with *)

(** Whatever status code the transport answers with, 404 and 500 included,
    [invoke] returns a Response and does not raise: for the status line made
    of the numeral of [n], a space and a text, the Response has the status
    code [n], that text, the headers as normalized and the body bytes as
    they came. *)
Theorem invoke_returns_response_for_any_status `{Externals}
    (application : Type) (urlencode : pydict -> string)
    (gen_request :
       application -> string -> string -> option pydict ->
       list (string * string) -> option pydict ->
       result (string * list (string * string) * bytes))
    (σ : Invoke.store) (self : Invoke.loc) (app : application)
    (a : Invoke.attributes) (n : N) (text : string)
    (hs hs' : list (string * string)) (body : bytes) :
  σ !! self = Some (Invoke.OCall a) ->
  (forall verb url extra_environ headers params,
     gen_request app verb url extra_environ headers params
     = Return (numeral n +:+ " " +:+ text, hs, body)) ->
  normalize_headers (Some (map (fun h => HPair (fst h) (snd h)) hs)) = Some hs' ->
  exists r,
    fst (Invoke.invoke application urlencode gen_request σ self app) = Return r
    /\ Response.status r = numeral n +:+ " " +:+ text
    /\ Response.status_code r = Z.of_N n
    /\ Response.status_text r = Some text
    /\ Response.headers r = hs'
    /\ Response.body r = Some body.
Proof.
  intros Hself Hanswer Hheaders.
  destruct (invoke_request_holds application urlencode gen_request σ self app a
              Hself) as [-> _].
  rewrite Hanswer. simpl. unfold Response.init.
  rewrite (parse_status_code_text (numeral n) text (numeral_not_empty n)
             (numeral_all_digits n)), Hheaders. simpl.
  destruct (Response.scan_content_type hs') as [ct enc].
  eexists. split; [reflexivity |]. simpl. rewrite (decimal_numeral n).
  repeat split.
Qed.

Lemma invoke_returns_response_for_any_status_witness :
  exists r,
    fst (Invoke.invoke (H := spec_externals) unit (fun _ => EmptyString)
           not_found_transport sample_store 1%positive tt) = Return r
    /\ Response.status r = "404 Not Found"
    /\ Response.status_code r = 404
    /\ Response.status_text r = Some "Not Found"
    /\ Response.headers r = [("X-Id", "7")]
    /\ Response.body r = Some (list_ascii_of_string "gone").
Proof.
  apply (invoke_returns_response_for_any_status (H := spec_externals) unit
           (fun _ => EmptyString) not_found_transport sample_store 1%positive
           tt sample_attributes 404%N "Not Found" [("X-Id", "7")]);
    reflexivity.
Defined.
